(** * libdtfs: device-tree filesystem parser

    A shallow embedding of [libdtfs.h] / [libdtfs.c] and the properties
    of the property-buffer classifier, its two indexed decoders, the path
    builder and the traversal engine.

    Conventions of the embedding.
    - A property buffer [(data, len)] is a [list byte] (the object that
      [data] points to) together with the [size_t] length handed to the
      function.  Pointers into the buffer are byte offsets in [Z].
    - C integer types follow the LP64 Linux ABI the library is written
      for: [int] and [unsigned] are 32 bits wide, [size_t] is 64 bits.
      Narrowing conversions are written out ([C.to_int], [C.to_unsigned]).
    - A read outside the object is undefined behaviour in C; the
      embedding reports it as [Fault].  Loops are unrolled with fuel; the
      fuel chosen by each function is shown to be sufficient. *)

From Stdlib Require Import ZArith List Lia Bool.
From Stdlib Require Import Strings.Byte Ascii String DecimalString.
Import ListNotations.
Open Scope Z_scope.

(** ** C integer types *)

Module C.

Definition INT_MAX : Z := 2147483647.

(* value of a [size_t] or [unsigned] converted to [int] *)
Definition to_int (z : Z) : Z := (z + 2147483648) mod 4294967296 - 2147483648.

(* value stored into an [unsigned] *)
Definition to_unsigned (z : Z) : Z := z mod 4294967296.

(* value of an expression computed in [size_t] *)
Definition to_size_t (z : Z) : Z := z mod 18446744073709551616.

End C.

(** ** Outcomes of a computation over a buffer *)

Inductive result (A : Type) : Type :=
| Ret (a : A)      (* the function returns *)
| Fault            (* an access outside the object *)
| OutOfFuel.       (* loop unrolling exhausted; never reached, see below *)

Arguments Ret {A} a.
Arguments Fault {A}.
Arguments OutOfFuel {A}.

Definition bind {A B : Type} (m : result A) (k : A -> result B) : result B :=
  match m with
  | Ret a => k a
  | Fault => Fault
  | OutOfFuel => OutOfFuel
  end.

Notation "'let*' x ':=' m 'in' k" := (bind m (fun x => k))
  (at level 10, x name, m at level 100, k at level 200).

(** ** Memory reads *)

(* [data[i]] *)
Definition load (data : list byte) (i : Z) : result byte :=
  if i <? 0 then Fault
  else match nth_error data (Z.to_nat i) with
       | Some c => Ret c
       | None => Fault
       end.

Definition is_nul (c : byte) : bool := Byte.eqb c x00.

(* <ctype.h> isprint in the "C" locale (the library never calls setlocale) *)
Definition isprint (c : byte) : bool :=
  let n := Z.of_N (Byte.to_N c) in (32 <=? n) && (n <=? 126).

(* strlen(data + s): bytes before the first NUL at or after offset s *)
Fixpoint strlen_from (l : list byte) : result Z :=
  match l with
  | [] => Fault
  | c :: l' => if is_nul c then Ret 0 else let* n := strlen_from l' in Ret (n + 1)
  end.

Definition strlen (data : list byte) (s : Z) : result Z :=
  if s <? 0 then Fault else strlen_from (skipn (Z.to_nat s) data).

(** ** libdtfs.h : property type codes *)

Definition DTFS_PROP_SIMPLE : Z := 0.
Definition DTFS_PROP_STRINGS : Z := 1.
Definition DTFS_PROP_WORDS : Z := 2.
Definition DTFS_PROP_BYTES : Z := 3.

(** ** libdtfs.c : is_printable_string *)

(* while (s < se && *s && isprint((unsigned char)*s)) s++;
   the value is the final s *)
Fixpoint skip_printable (fuel : nat) (data : list byte) (s se : Z) : result Z :=
  match fuel with
  | O => OutOfFuel
  | S fuel' =>
      if s <? se then
        let* c := load data s in
        if negb (is_nul c) && isprint c
        then skip_printable fuel' data (s + 1) se
        else Ret s
      else Ret s
  end.

(* while (s < se) { ss = s; <inner loop>;
                    if ( *s != 0 || s == ss) return 0; s++; }  return 1; *)
Fixpoint scan_strings (fuel : nat) (data : list byte) (s se : Z) : result bool :=
  match fuel with
  | O => OutOfFuel
  | S fuel' =>
      if s <? se then
        let ss := s in
        let* s1 := skip_printable (S (Z.to_nat (se - s))) data s se in
        let* c := load data s1 in
        if negb (is_nul c) || (s1 =? ss) then Ret false
        else scan_strings fuel' data (s1 + 1) se
      else Ret true
  end.

(* static unsigned is_printable_string(const void *data, int len) *)
Definition is_printable_string (data : list byte) (len : Z) : result bool :=
  if len =? 0 then Ret false
  else
    let* c := load data (len - 1) in
    if negb (is_nul c) then Ret false
    else scan_strings (S (Z.to_nat len)) data 0 len.

(** ** libdtfs.c : dtfs_get_prop_type *)

(* do { s += strlen(s) + 1; *count += 1; } while (s < (d + len)); *)
Fixpoint count_strings (fuel : nat) (data : list byte) (s len count : Z)
  : result Z :=
  match fuel with
  | O => OutOfFuel
  | S fuel' =>
      let* n := strlen data s in
      let s' := s + (n + 1) in
      let count' := C.to_unsigned (count + 1) in
      if s' <? len then count_strings fuel' data s' len count'
      else Ret count'
  end.

(* int dtfs_get_prop_type(const void *data, size_t len, unsigned *count)
   [count] tells whether the count pointer is non-null; the value is the
   returned code and what was stored through [count], if anything. *)
Definition dtfs_get_prop_type (data : list byte) (len : Z) (count : bool)
  : result (Z * option Z) :=
  if len =? 0 then Ret (DTFS_PROP_SIMPLE, None)
  else
    let* p := is_printable_string data (C.to_int len) in
    if p then
      if count then
        let* c := count_strings (S (Z.to_nat len)) data 0 len 0 in
        Ret (DTFS_PROP_STRINGS, Some c)
      else Ret (DTFS_PROP_STRINGS, None)
    else if len mod 4 =? 0 then
      Ret (DTFS_PROP_WORDS,
           if count then Some (C.to_unsigned (len / 4)) else None)
    else
      Ret (DTFS_PROP_BYTES, if count then Some (C.to_unsigned len) else None).

(** ** libdtfs.c : dtfs_word_get *)

Definition byte_val (c : byte) : Z := Z.of_N (Byte.to_N c).

(* ntohl(w[n]): the four bytes at offset 4n, most significant first *)
Definition load_be32 (data : list byte) (off : Z) : result Z :=
  let* b0 := load data off in
  let* b1 := load data (off + 1) in
  let* b2 := load data (off + 2) in
  let* b3 := load data (off + 3) in
  Ret (Z.lor (Z.shiftl (byte_val b0) 24)
             (Z.lor (Z.shiftl (byte_val b1) 16)
                    (Z.lor (Z.shiftl (byte_val b2) 8) (byte_val b3)))).

(* int dtfs_word_get(const void *data, size_t len, unsigned n, uint32_t *word)
   [word] tells whether the output pointer is non-null; the value is the
   returned code and the word stored, if any. *)
Definition dtfs_word_get (data : list byte) (len n : Z) (word : bool)
  : result (Z * option Z) :=
  if negb word then Ret (-1, None)
  else
    let* t := dtfs_get_prop_type data len false in
    if negb (fst t =? DTFS_PROP_WORDS) then Ret (-1, None)
    else if C.to_size_t (n * 4) >? len then Ret (-1, None)
    else
      let* w := load_be32 data (4 * n) in
      Ret (0, Some w).

(** ** libdtfs.c : dtfs_string_get *)

(* do { if (cur == n) { *str = s; return 0; }
        s += strlen(s) + 1; cur++; } while (s < (d + len));  return -1; *)
Fixpoint string_walk (fuel : nat) (data : list byte) (s len cur n : Z)
  : result (Z * option Z) :=
  match fuel with
  | O => OutOfFuel
  | S fuel' =>
      if cur =? n then Ret (0, Some s)
      else
        let* k := strlen data s in
        let s' := s + (k + 1) in
        let cur' := C.to_unsigned (cur + 1) in
        if s' <? len then string_walk fuel' data s' len cur' n
        else Ret (-1, None)
  end.

(* int dtfs_string_get(const void *data, size_t len, unsigned n,
                       const char **str)
   the value is the returned code and the offset of the pointer stored
   through [str], if any. *)
Definition dtfs_string_get (data : list byte) (len n : Z) (str : bool)
  : result (Z * option Z) :=
  if negb str then Ret (-1, None)
  else
    let* t := dtfs_get_prop_type data len false in
    if negb (fst t =? DTFS_PROP_STRINGS) then Ret (-1, None)
    else string_walk (S (Z.to_nat len)) data 0 len 0 n.

(* the NUL-terminated string a returned pointer designates *)
Fixpoint cstring_from (l : list byte) : result (list byte) :=
  match l with
  | [] => Fault
  | c :: l' => if is_nul c then Ret [] else let* r := cstring_from l' in Ret (c :: r)
  end.

Definition cstring_at (data : list byte) (s : Z) : result (list byte) :=
  if s <? 0 then Fault else cstring_from (skipn (Z.to_nat s) data).

Definition blen (b : list byte) : Z := Z.of_nat (List.length b).

(** ** The classification rule as documented

    These definitions follow the documentation of the classifier, not
    its code: the buffer is cut at its NUL bytes and the pieces are
    inspected. *)

Inductive prop_type : Type := Simple | Strings | Words | Bytes.

Definition prop_code (t : prop_type) : Z :=
  match t with
  | Simple => DTFS_PROP_SIMPLE
  | Strings => DTFS_PROP_STRINGS
  | Words => DTFS_PROP_WORDS
  | Bytes => DTFS_PROP_BYTES
  end.

(* the maximal runs of bytes up to the next NUL, in order, and the bytes
   that follow the last NUL *)
Fixpoint nul_split (b : list byte) : list (list byte) * list byte :=
  match b with
  | [] => ([], [])
  | c :: b' =>
      let (rs, rest) := nul_split b' in
      if is_nul c then ([] :: rs, rest)
      else match rs with
           | r :: rs' => ((c :: r) :: rs', rest)
           | [] => ([], c :: rest)
           end
  end.

Definition runs (b : list byte) : list (list byte) := fst (nul_split b).
Definition trailing (b : list byte) : list byte := snd (nul_split b).

Definition is_empty {A : Type} (l : list A) : bool :=
  match l with [] => true | _ => false end.

Definition printable_char (c : byte) : bool := negb (is_nul c) && isprint c.

(* a run is non-empty and made of printable, non-NUL characters *)
Definition run_ok (r : list byte) : bool :=
  negb (is_empty r) && forallb printable_char r.

Definition final_byte_nul (b : list byte) : bool :=
  match rev b with
  | c :: _ => is_nul c
  | [] => false
  end.

Definition well_formed_string_list (b : list byte) : bool :=
  final_byte_nul b && forallb run_ok (runs b) && is_empty (trailing b).

Definition classify_rule (b : list byte) : prop_type :=
  if blen b =? 0 then Simple
  else if well_formed_string_list b then Strings
  else if blen b mod 4 =? 0 then Words
  else Bytes.

Definition count_rule (b : list byte) : option Z :=
  match classify_rule b with
  | Simple => None
  | Strings => Some (Z.of_nat (List.length (runs b)))
  | Words => Some (blen b / 4)
  | Bytes => Some (blen b)
  end.

(* offset of the first byte of the k-th run *)
Fixpoint run_offset (rs : list (list byte)) (k : nat) : Z :=
  match k, rs with
  | S k', r :: rs' => blen r + 1 + run_offset rs' k'
  | _, _ => 0
  end.

(** ** libdtfs.h : dtfs_concat_path

    A C string argument is an [option string]: [None] is the null
    pointer, the terminating NUL is implicit.  [malloc] tells whether an
    allocation of the given size succeeds.  [use_asprintf] selects the
    branch compiled when [_DTFS_USE_ASPRINTF_] is defined. *)

Definition is_slash (c : option ascii) : bool :=
  match c with
  | Some c => Ascii.eqb c "/"
  | None => false
  end.

(* base[len_base - 1] *)
Definition last_char (s : string) : option ascii :=
  String.get (String.length s - 1)%nat s.

(* path[0]; the terminator when the string is empty *)
Definition first_char (s : string) : option ascii := String.get 0%nat s.

Definition slen (s : string) : Z := Z.of_nat (String.length s).

Definition dtfs_concat_path (use_asprintf : bool) (malloc : Z -> bool)
           (base path : option string) : result (option string) :=
  match base with
  | None => Fault                (* size_t len_base = strlen(base); comes first *)
  | Some b =>
      let len_base := slen b in
      if len_base <? 1 then Ret None
      else
        match path with
        | None => if malloc (len_base + 1) then Ret (Some b) else Ret None
        | Some p =>
            if use_asprintf then
              let str := if is_slash (last_char b) then (b ++ p)%string
                         else (b ++ "/" ++ p)%string in
              if malloc (slen str + 1) then Ret (Some str) else Ret None
            else
              let sep := negb (is_slash (last_char b))
                         && negb (is_slash (first_char p)) in
              let size := if sep then len_base + slen p + 2
                          else len_base + slen p + 1 in
              if malloc size
              then Ret (Some (if sep then (b ++ "/" ++ p)%string
                              else (b ++ p)%string))
              else Ret None
        end
  end.

(** ** The backing store and what a call does to its surroundings *)

Inductive file_kind : Type := S_IFDIR | S_IFREG | S_IFOTHER.

Record stat_buf : Type := { st_mode : file_kind; st_size : Z }.

Record env : Type := {
  env_asprintf : bool;                          (* _DTFS_USE_ASPRINTF_ defined *)
  env_malloc : Z -> bool;                       (* malloc(size) succeeds *)
  env_stat : string -> option stat_buf;         (* stat(path, &s); None: it fails *)
  env_opendir : string -> option (list string); (* opendir + readdir: the d_name
                                                   of each entry; None: opendir fails *)
  env_fopen : string -> option (list byte)      (* fopen(path, "r"): the bytes the
                                                   stream delivers; None: it fails *)
}.

Inductive event : Type :=
| EvStat (path : string)
| EvOpendir (path : string)
| EvFopen (path : string)
| EvStderr (msg : string)
| EvNewSubNode (path name : string)
| EvPropContent (path : string) (data : option (list byte)) (len : Z).

Definition is_visit (e : event) : bool :=
  match e with
  | EvNewSubNode _ _ | EvPropContent _ _ _ => true
  | _ => false
  end.

Definition is_store_access (e : event) : bool :=
  match e with
  | EvStat _ | EvOpendir _ | EvFopen _ => true
  | _ => false
  end.

(* the callback invocations of a trace, in order *)
Definition visits (tr : list event) : list event := filter is_visit tr.

Definition DTFS_PATH_ERROR : Z := -1.
Definition DTFS_PATH_NODE : Z := 0.
Definition DTFS_PATH_PROPERTY : Z := 1.

(** ** libdtfs.c : dtfs_check_path *)

Definition dtfs_check_path (e : env) (base path : option string)
  : result (Z * list event) :=
  match base with
  | None => Ret (-1, [])
  | Some _ =>
      let* str := dtfs_concat_path (env_asprintf e) (env_malloc e) base path in
      match str with
      | None => Ret (-1, [EvStderr "dtfs_check_path: path concat failed (%m)"])
      | Some str =>
          match env_stat e str with
          | None =>
              Ret (-1, [EvStat str;
                        EvStderr "dtfs_check_path: stat failed for %s (%m)"])
          | Some s =>
              Ret (match st_mode s with
                   | S_IFDIR => DTFS_PATH_NODE
                   | S_IFREG => DTFS_PATH_PROPERTY
                   | S_IFOTHER => DTFS_PATH_ERROR
                   end, [EvStat str])
          end
      end
  end.

(** ** libdtfs.c : dtfs_list_node *)

(* ep->d_name[0] != '.' *)
Definition not_hidden (name : string) : bool :=
  match first_char name with
  | Some c => negb (Ascii.eqb c ".")
  | None => true
  end.

(* [new_sub_node] tells whether the callback pointer is non-null *)
Definition dtfs_list_node (e : env) (base node_path : option string)
           (new_sub_node : bool) : result (Z * list event) :=
  if negb new_sub_node then Ret (0, [])
  else
    match base with
    | None => Ret (-1, [])
    | Some _ =>
        let* str :=
          dtfs_concat_path (env_asprintf e) (env_malloc e) base node_path in
        match str with
        | None => Ret (-1, [EvStderr "dtfs_list_node: concat path failed (%m)"])
        | Some str =>
            match env_opendir e str with
            | Some names =>
                Ret (0, EvOpendir str
                        :: map (EvNewSubNode str) (filter not_hidden names))
            | None =>
                Ret (0, [EvOpendir str;
                         EvStderr "dtfs_list_node: Couldn't open the directory"])
            end
        end
    end.

(** ** libdtfs.c : dtfs_prop_get *)

(* [prop_content] tells whether the callback pointer is non-null *)
Definition dtfs_prop_get (e : env) (base path : option string)
           (prop_content : bool) : result (Z * list event) :=
  if negb prop_content then Ret (0, [])
  else
    let* chk := dtfs_check_path e base path in
    let tr := snd chk in
    if negb (fst chk =? DTFS_PATH_PROPERTY) then Ret (-1, tr)
    else
      match base with
      | None => Ret (-1, tr)
      | Some _ =>
          let* str :=
            dtfs_concat_path (env_asprintf e) (env_malloc e) base path in
          match str with
          | None =>
              Ret (-1, tr ++ [EvStderr "dtfs_prop_get: concat path failed (%m)"])
          | Some str =>
              match env_stat e str with
              | None =>
                  Ret (-1, tr ++ [EvStat str;
                                  EvStderr "dtfs_prop_get: stat failed (%m)"])
              | Some s =>
                  let size := st_size s in
                  if size >? 0 then
                    match env_fopen e str with
                    | None =>
                        Ret (-1, tr ++ [EvStat str; EvFopen str;
                                        EvStderr "dtfs_prop_get: open failed (%m)"])
                    | Some stream =>
                        if negb (env_malloc e size) then
                          Ret (-1, tr ++ [EvStat str; EvFopen str;
                                          EvStderr "dtfs_prop_get: malloc buf failed (%m)"])
                        else
                          (* fread(buf, 1, size, f) *)
                          let buf := firstn (Z.to_nat size) stream in
                          if negb (blen buf =? size) then
                            Ret (-1, tr ++ [EvStat str; EvFopen str;
                                            EvStderr "dtfs_prop_get: truncated read (%m)"])
                          else
                            Ret (0, tr ++ [EvStat str; EvFopen str;
                                           EvPropContent str (Some buf) size])
                    end
                  else
                    Ret (0, tr ++ [EvStat str; EvPropContent str None 0])
              end
          end
      end.

(* the bytes of a word, most significant first, as a number *)
Definition be32 (b0 b1 b2 b3 : byte) : Z :=
  byte_val b0 * 16777216 + byte_val b1 * 65536 + byte_val b2 * 256 + byte_val b3.

Definition no_nul (r : list byte) : bool := forallb (fun c => negb (is_nul c)) r.

(** ** Sample inputs *)

Definition buf_a_b : list byte := ["a"%byte; x00; "b"%byte; x00].
Definition buf_w12 : list byte := [x00; x00; x00; x01; x00; x00; x00; x02].
Definition buf_w1 : list byte := [x00; x00; x00; x01].

(* a small tree: /dt holds the property files model (4 bytes) and ranges
   (empty) and the node cpus; nothing else exists *)
Definition sample_env : env := {|
  env_asprintf := false;
  env_malloc := fun _ => true;
  env_stat := fun p =>
    if String.eqb p "/dt/model" then Some {| st_mode := S_IFREG; st_size := 4 |}
    else if String.eqb p "/dt/ranges" then Some {| st_mode := S_IFREG; st_size := 0 |}
    else if String.eqb p "/dt/cpus" then Some {| st_mode := S_IFDIR; st_size := 0 |}
    else if String.eqb p "/dt" then Some {| st_mode := S_IFDIR; st_size := 0 |}
    else None;
  env_opendir := fun p =>
    if String.eqb p "/dt"
    then Some ["."%string; ".."%string; "model"%string; "ranges"%string; "cpus"%string]
    else if String.eqb p "/dt/cpus" then Some ["."%string; ".."%string]
    else None;
  env_fopen := fun p =>
    if String.eqb p "/dt/model" then Some buf_a_b
    else if String.eqb p "/dt/ranges" then Some []
    else None
|}.

(* buffers whose length does not fit an int *)

(* 2^32 bytes: one run of 2^32 - 1 letters and its NUL *)
Definition huge_string : list byte :=
  repeat "a"%byte (Z.to_nat 4294967295) ++ [x00].

(* 2^32 + 1 bytes, none of them printable *)
Definition huge_bytes : list byte := x01 :: repeat x01 (Z.to_nat 4294967296).

(* 2^32 + 2 bytes: the string "a", then letters with no NUL after them *)
Definition huge_unterminated : list byte :=
  "a"%byte :: x00 :: repeat "a"%byte (Z.to_nat 4294967296).

(* INT_MAX + 1 bytes *)
Definition huge_zeros : list byte := repeat x00 (Z.to_nat 2147483648).

(* [b] classifies as the type with code [t] *)
Definition classifies_as (b : list byte) (t : Z) : Prop :=
  exists written, dtfs_get_prop_type b (blen b) false = Ret (t, written).

(** ** libdtfs.h : dtfs_node_list_cb

    [struct dtfs_node_list_s]: [names] is the pointer table ([None] for a
    null [names], a [None] entry for a null pointer in the table), the
    three counters are [unsigned]. *)

Module NodeList.

Record dtfs_node_list_s : Type := {
  names : option (list (option string));
  max : Z;
  count : Z;
  missed : Z
}.

End NodeList.

(* table[i] = v; None when the slot lies outside the table *)
Fixpoint store_at {A : Type} (table : list A) (i : nat) (v : A)
  : option (list A) :=
  match table, i with
  | [], _ => None
  | _ :: rest, O => Some (v :: rest)
  | x :: rest, S i' => option_map (cons x) (store_at rest i' v)
  end.

(* strdup(s): a copy, or the null pointer when the allocation fails *)
Definition strdup (malloc : Z -> bool) (s : string) : option string :=
  if malloc (slen s + 1) then Some s else None.

(* static inline void dtfs_node_list_cb(const char *path, const char *name,
                                        void *priv) *)
Definition dtfs_node_list_cb (malloc : Z -> bool) (path name : string)
           (priv : option NodeList.dtfs_node_list_s)
  : result (option NodeList.dtfs_node_list_s) :=
  match priv with
  | None => Ret None
  | Some l =>
      match NodeList.names l with
      | None => Ret (Some l)
      | Some table =>
          if NodeList.count l <? NodeList.max l then
            (* l->names[l->count++] = strdup(name); *)
            match store_at table (Z.to_nat (NodeList.count l))
                           (strdup malloc name) with
            | Some table' =>
                Ret (Some {| NodeList.names := Some table';
                             NodeList.max := NodeList.max l;
                             NodeList.count := C.to_unsigned (NodeList.count l + 1);
                             NodeList.missed := NodeList.missed l |})
            | None => Fault
            end
          else
            (* l->missed++; *)
            Ret (Some {| NodeList.names := Some table;
                         NodeList.max := NodeList.max l;
                         NodeList.count := NodeList.count l;
                         NodeList.missed := C.to_unsigned (NodeList.missed l + 1) |})
      end
  end.

(* the child callbacks of a trace, in order, run as dtfs_node_list_cb *)
Fixpoint run_node_list_cb (malloc : Z -> bool) (tr : list event)
         (priv : option NodeList.dtfs_node_list_s)
  : result (option NodeList.dtfs_node_list_s) :=
  match tr with
  | [] => Ret priv
  | EvNewSubNode path name :: tr' =>
      let* priv' := dtfs_node_list_cb malloc path name priv in
      run_node_list_cb malloc tr' priv'
  | _ :: tr' => run_node_list_cb malloc tr' priv
  end.

(* dtfs_list_node(base, node_path, dtfs_node_list_cb, priv): the returned
   code and the structure behind priv afterwards *)
Definition list_node_into (e : env) (base node_path : option string)
           (priv : option NodeList.dtfs_node_list_s)
  : result (Z * option NodeList.dtfs_node_list_s) :=
  let* r := dtfs_list_node e base node_path true in
  let* priv' := run_node_list_cb (env_malloc e) (snd r) priv in
  Ret (fst r, priv').

(** ** libdtfs.h : dtfs_prop_data_cb

    [struct dtfs_prop_data_s]: [data] is the copy ([None] for the null
    pointer), [len] a [size_t]. *)

Module PropData.

Record dtfs_prop_data_s : Type := {
  data : option (list byte);
  len : Z
}.

End PropData.

(* memcpy(dst, src, n) into a fresh block of n bytes: the bytes copied.
   A copy of no bytes reads nothing, a longer one reads through src. *)
Definition memcpy_from (src : option (list byte)) (n : Z) : result (list byte) :=
  match src with
  | Some bytes =>
      if n <=? blen bytes then Ret (firstn (Z.to_nat n) bytes) else Fault
  | None => if n =? 0 then Ret [] else Fault
  end.

(* static inline void dtfs_prop_data_cb(const char *path, const void *data,
                                        size_t len, void *priv) *)
Definition dtfs_prop_data_cb (malloc : Z -> bool) (path : string)
           (data : option (list byte)) (len : Z)
           (priv : option PropData.dtfs_prop_data_s)
  : result (option PropData.dtfs_prop_data_s) :=
  match priv with
  | None => Ret None
  | Some _ =>
      if malloc len then
        let* copy := memcpy_from data len in
        Ret (Some {| PropData.data := Some copy; PropData.len := len |})
      else
        Ret (Some {| PropData.data := None; PropData.len := C.to_size_t (-1) |})
  end.

(* the property callbacks of a trace, in order, run as dtfs_prop_data_cb *)
Fixpoint run_prop_data_cb (malloc : Z -> bool) (tr : list event)
         (priv : option PropData.dtfs_prop_data_s)
  : result (option PropData.dtfs_prop_data_s) :=
  match tr with
  | [] => Ret priv
  | EvPropContent path data len :: tr' =>
      let* priv' := dtfs_prop_data_cb malloc path data len priv in
      run_prop_data_cb malloc tr' priv'
  | _ :: tr' => run_prop_data_cb malloc tr' priv
  end.

(* dtfs_prop_get(base, path, dtfs_prop_data_cb, priv): the returned code
   and the structure behind priv afterwards *)
Definition prop_get_into (e : env) (base path : option string)
           (priv : option PropData.dtfs_prop_data_s)
  : result (Z * option PropData.dtfs_prop_data_s) :=
  let* r := dtfs_prop_get e base path true in
  let* priv' := run_prop_data_cb (env_malloc e) (snd r) priv in
  Ret (fst r, priv').

(* the entry names handed to the child visitor, in order *)
Fixpoint visited_names (tr : list event) : list string :=
  match tr with
  | [] => []
  | EvNewSubNode _ name :: tr' => name :: visited_names tr'
  | _ :: tr' => visited_names tr'
  end.

(** ** dtfs_tree.c : what the tool prints

    A call of the tool's functions yields the sequence of its outputs:
    one [Stdout] per printf, one [Stderr] per fprintf(stderr, ...) of
    dtfs_tree.c, and, as [Lib], what the library calls did (store
    accesses and the library's own diagnostics). *)

Inductive out : Type :=
| Stdout (text : string)
| Stderr (text : string)
| Lib (ev : event).

Definition nl : string := String "010"%char EmptyString.      (* \n *)
Definition dquote : string := String "034"%char EmptyString.  (* the quote character *)

(* the text written to stdout, in order *)
Fixpoint stdout_text (outs : list out) : string :=
  match outs with
  | [] => EmptyString
  | Stdout t :: outs' => (t ++ stdout_text outs')%string
  | _ :: outs' => stdout_text outs'
  end.

Definition is_stderr (o : out) : bool :=
  match o with
  | Stderr _ => true
  | _ => false
  end.

(* printf("%d", v): v read as an int *)
Definition printf_d (v : Z) : string := NilZero.string_of_int (Z.to_int (C.to_int v)).

Definition hex_digit (upper : bool) (d : Z) : ascii :=
  match String.get (Z.to_nat d)
                   (if upper then "0123456789ABCDEF" else "0123456789abcdef") with
  | Some c => c
  | None => "0"%char
  end.

(* the hexadecimal digits of v, most significant first, at least one *)
Fixpoint hex_digits (fuel : nat) (upper : bool) (v : Z) (acc : string) : string :=
  match fuel with
  | O => acc
  | S fuel' =>
      let acc' := String (hex_digit upper (v mod 16)) acc in
      if v / 16 =? 0 then acc' else hex_digits fuel' upper (v / 16) acc'
  end.

Fixpoint zeros (n : nat) : string :=
  match n with
  | O => EmptyString
  | S n' => String "0"%char (zeros n')
  end.

(* printf("%0<width>x", v) and printf("%0<width>X", v): v is converted to
   unsigned int, which has at most 8 hexadecimal digits *)
Definition printf_hex (upper : bool) (width : nat) (v : Z) : string :=
  let digits := hex_digits 8 upper (C.to_unsigned v) EmptyString in
  (zeros (width - String.length digits) ++ digits)%string.

(* the value of a byte read through an int8_t pointer *)
Definition int8_val (c : byte) : Z :=
  if byte_val c <? 128 then byte_val c else byte_val c - 256.

(* ++i on an int: overflow is undefined *)
Definition incr_int (i : Z) : result Z :=
  if i =? C.INT_MAX then Fault else Ret (i + 1).

(* case DTFS_PROP_STRINGS: the for loop; the flag tells that the function
   returned from inside the loop *)
Fixpoint print_strings (fuel : nat) (data : list byte) (len count i : Z)
  : result (list out * bool) :=
  match fuel with
  | O => OutOfFuel
  | S fuel' =>
      if C.to_unsigned i <? count then
        let* r := dtfs_string_get data len (C.to_unsigned i) true in
        if fst r =? 0 then
          match snd r with
          | None => Fault
          | Some off =>
              let* str := cstring_at data off in
              let quoted := Stdout (dquote ++ string_of_list_byte str ++ dquote) in
              let sep := if C.to_unsigned i <? C.to_unsigned (count - 1)
                         then [Stdout ", "] else [] in
              let* i' := incr_int i in
              let* rest := print_strings fuel' data len count i' in
              Ret (quoted :: sep ++ fst rest, snd rest)
          end
        else
          Ret ([Stderr ("Failed to get string " ++ printf_d i ++ " !" ++ nl)], true)
      else Ret ([], false)
  end.

(* case DTFS_PROP_WORDS: the for loop; w is not initialised, so printing
   it after a failed dtfs_word_get reads an indeterminate value *)
Fixpoint print_words (fuel : nat) (data : list byte) (len count i : Z)
  : result (list out) :=
  match fuel with
  | O => OutOfFuel
  | S fuel' =>
      if C.to_unsigned i <? count then
        let* r := dtfs_word_get data len (C.to_unsigned i) true in
        match snd r with
        | None => Fault
        | Some w =>
            let sep := if C.to_unsigned i <? C.to_unsigned (count - 1)
                       then [Stdout " "] else [] in
            let* i' := incr_int i in
            let* rest := print_words fuel' data len count i' in
            Ret (Stdout ("0x" ++ printf_hex true 8 w) :: sep ++ rest)
        end
      else Ret []
  end.

(* case DTFS_PROP_BYTES: the for loop over const int8_t *b = data *)
Fixpoint print_bytes (fuel : nat) (data : list byte) (count i : Z)
  : result (list out) :=
  match fuel with
  | O => OutOfFuel
  | S fuel' =>
      if C.to_unsigned i <? count then
        let* c := load data i in
        let* i' := incr_int i in
        let* rest := print_bytes fuel' data count i' in
        Ret (Stdout (printf_hex false 2 (int8_val c)) :: rest)
      else Ret []
  end.

(* void prop_content(const char *path, const void *data, size_t len,
                     void *priv); a null data is an object of no bytes *)
Definition prop_content (path : string) (data : option (list byte)) (len : Z)
  : result (list out) :=
  let mem := match data with Some b => b | None => [] end in
  let* r := dtfs_get_prop_type mem len true in
  let type := fst r in
  if type =? DTFS_PROP_SIMPLE then Ret [Stdout ("| " ++ path ++ nl)]
  else
    match snd r with
    | None => Fault
    | Some count =>
        let head (opening : string) :=
          Stdout ("| " ++ path ++ " (" ++ printf_d count ++ ") = " ++ opening) in
        if type =? DTFS_PROP_STRINGS then
          let* body := print_strings (S (Z.to_nat count)) mem len count 0 in
          Ret (head EmptyString
               :: fst body ++ (if snd body then [] else [Stdout nl]))
        else if type =? DTFS_PROP_WORDS then
          let* body := print_words (S (Z.to_nat count)) mem len count 0 in
          Ret (head "<"%string :: body ++ [Stdout (">" ++ nl)])
        else if type =? DTFS_PROP_BYTES then
          let* body := print_bytes (S (Z.to_nat count)) mem count 0 in
          Ret (head "["%string :: body ++ [Stdout ("]" ++ nl)])
        else Ret [Stderr ("Invalid Type !" ++ nl)]
    end.

(* the visits of a library call made with the tool's callbacks, run in
   order; everything else the call did is kept as it is *)
Fixpoint run_visits (child : string -> string -> result (list out))
         (prop : string -> option (list byte) -> Z -> result (list out))
         (tr : list event) : result (list out) :=
  match tr with
  | [] => Ret []
  | EvNewSubNode path name :: tr' =>
      let* o := child path name in
      let* rest := run_visits child prop tr' in
      Ret (o ++ rest)
  | EvPropContent path data len :: tr' =>
      let* o := prop path data len in
      let* rest := run_visits child prop tr' in
      Ret (o ++ rest)
  | ev :: tr' =>
      let* rest := run_visits child prop tr' in
      Ret (Lib ev :: rest)
  end.

(* void new_sub_node(const char *path, const char *name, void *priv);
   the fuel bounds the depth of the walk *)
Fixpoint new_sub_node (fuel : nat) (e : env) (path name : string)
  : result (list out) :=
  match fuel with
  | O => OutOfFuel
  | S fuel' =>
      let* chk := dtfs_check_path e (Some path) (Some name) in
      let type := fst chk in
      let checked := map Lib (snd chk) in
      if type =? DTFS_PATH_NODE then
        let* r := dtfs_list_node e (Some path) (Some name) true in
        let* sub := run_visits (new_sub_node fuel' e) prop_content (snd r) in
        Ret (checked ++ Stdout ("+ " ++ path ++ "/" ++ name ++ nl) :: sub)
      else if type =? DTFS_PATH_PROPERTY then
        let* r := dtfs_prop_get e (Some path) (Some name) true in
        let* sub := run_visits (new_sub_node fuel' e) prop_content (snd r) in
        Ret (checked ++ sub)
      else
        Ret (checked
             ++ [Stderr ("new_sub_node: invalid path " ++ path ++ "/" ++ name ++ nl)])
  end.

Definition DTFS_DEFAULT_PATH : string := "/proc/device-tree".

(* int main(int argc, char **argv): the exit status and the outputs;
   argv holds argc strings *)
Definition main (fuel : nat) (e : env) (argv : list string)
  : result (Z * list out) :=
  let walk (base_path : string) :=
    let* r := dtfs_list_node e (Some base_path) None true in
    let* sub := run_visits (new_sub_node fuel e) prop_content (snd r) in
    if fst r <? 0 then Ret (1, sub ++ [Stdout ("dtfs_list_node Failed !" ++ nl)])
    else Ret (0, sub) in
  match argv with
  | prog :: arg1 :: _ =>
      if String.eqb arg1 "-h"
      then Ret (1, [Stderr ("Usage: " ++ prog ++ " [-h] [base path]" ++ nl)])
      else walk arg1
  | _ => walk DTFS_DEFAULT_PATH
  end.

(* a tree two levels deep, with a property of each shape *)
Definition tree_env : env := {|
  env_asprintf := false;
  env_malloc := fun _ => true;
  env_stat := fun p =>
    if String.eqb p "/dt/cpus" then Some {| st_mode := S_IFDIR; st_size := 0 |}
    else if String.eqb p "/dt/model" then Some {| st_mode := S_IFREG; st_size := 4 |}
    else if String.eqb p "/dt/cpus/reg" then Some {| st_mode := S_IFREG; st_size := 8 |}
    else if String.eqb p "/dt/cpus/mac" then Some {| st_mode := S_IFREG; st_size := 3 |}
    else if String.eqb p "/dt/cpus/ranges" then Some {| st_mode := S_IFREG; st_size := 0 |}
    else None;
  env_opendir := fun p =>
    if String.eqb p "/dt" then Some ["."%string; "cpus"%string; "model"%string]
    else if String.eqb p "/dt/cpus"
    then Some [".."%string; "reg"%string; "mac"%string; "ranges"%string]
    else None;
  env_fopen := fun p =>
    if String.eqb p "/dt/model" then Some buf_a_b
    else if String.eqb p "/dt/cpus/reg" then Some buf_w12
    else if String.eqb p "/dt/cpus/mac" then Some [x00; x7f; xff]
    else None
|}.

(* what the tool's loops print, described from the values decoded *)

(* a string between quotes *)
Definition quoted (s : list byte) : string :=
  (dquote ++ string_of_list_byte s ++ dquote)%string.

(* one printf per item, one printf of the separator between two items *)
Fixpoint separated (sep : string) (items : list string) : list out :=
  match items with
  | [] => []
  | [x] => [Stdout x]
  | x :: rest => Stdout x :: Stdout sep :: separated sep rest
  end.

(* the big-endian words of a buffer, four bytes each *)
Fixpoint words_of (b : list byte) : list Z :=
  match b with
  | b0 :: b1 :: b2 :: b3 :: rest => be32 b0 b1 b2 b3 :: words_of rest
  | _ => []
  end.

(* what prop_content prints, for each shape of buffer *)
Definition prop_lines (path : string) (b : list byte) : list out :=
  let head (count : Z) (opening : string) :=
    Stdout ("| " ++ path ++ " (" ++ printf_d count ++ ") = " ++ opening) in
  match classify_rule b with
  | Simple => [Stdout ("| " ++ path ++ nl)]
  | Strings =>
      head (Z.of_nat (List.length (runs b))) ""%string
      :: separated ", " (map quoted (runs b)) ++ [Stdout nl]
  | Words =>
      head (blen b / 4) "<"%string
      :: separated " " (map (fun w => ("0x" ++ printf_hex true 8 w)%string)
                            (words_of b))
      ++ [Stdout (">" ++ nl)]
  | Bytes =>
      head (blen b) "["%string
      :: map (fun c => Stdout (printf_hex false 2 (int8_val c))) b
      ++ [Stdout ("]" ++ nl)]
  end.

(* the base path main walks: argv[1] when there is one, the default
   otherwise *)
Definition base_path_of (argv : list string) : string :=
  match argv with
  | _ :: arg1 :: _ => arg1
  | _ => DTFS_DEFAULT_PATH
  end.

(** ** Encoding a list of strings

    The layout the string decoder reads: every string followed by its
    NUL. *)

Definition encode_strings (ss : list (list byte)) : list byte :=
  List.concat (map (fun s => s ++ [x00]) ss).

(** * Properties *)

(** ** Bytes and lists *)

Lemma is_nul_true (c : byte) : is_nul c = true <-> c = x00.
Proof.
  unfold is_nul; split; intro H.
  - now apply Byte.byte_dec_bl.
  - now apply Byte.byte_dec_lb.
Qed.

Lemma is_nul_x00 : is_nul x00 = true.
Proof. reflexivity. Qed.

Lemma printable_not_nul (c : byte) : printable_char c = true -> is_nul c = false.
Proof.
  unfold printable_char; intro H; apply andb_true_iff in H.
  destruct H as [H _]; now apply negb_true_iff in H.
Qed.

Lemma blen_nil : blen [] = 0.
Proof. reflexivity. Qed.

Lemma blen_cons (c : byte) (l : list byte) : blen (c :: l) = blen l + 1.
Proof. unfold blen; cbn [List.length]; lia. Qed.

Lemma blen_app (l l' : list byte) : blen (l ++ l') = blen l + blen l'.
Proof. unfold blen; rewrite length_app; lia. Qed.

Lemma blen_nonneg (l : list byte) : 0 <= blen l.
Proof. unfold blen; lia. Qed.

Lemma blen_zero (l : list byte) : blen l = 0 -> l = [].
Proof. destruct l; [reflexivity | rewrite blen_cons; pose proof (blen_nonneg l); lia]. Qed.

Create Rewrite HintDb blen.
#[local] Hint Rewrite blen_nil blen_cons blen_app : blen.

(* lengths of concatenations are sums of non-negative lengths; the rest
   is linear arithmetic *)
Ltac blen_lia :=
  autorewrite with blen;
  repeat match goal with
         | |- context [blen ?l] =>
             lazymatch goal with
             | _ : 0 <= blen l |- _ => fail
             | _ => pose proof (blen_nonneg l)
             end
         end;
  lia.

(* [H : a && b = true] gives both conjuncts *)
Ltac andb_split H Ha Hb := apply andb_true_iff in H; destruct H as [Ha Hb].

Lemma skipn_blen (pre suf : list byte) :
  skipn (Z.to_nat (blen pre)) (pre ++ suf) = suf.
Proof.
  unfold blen; rewrite Nat2Z.id.
  induction pre as [|c pre IH]; [reflexivity | exact IH].
Qed.

Lemma load_at (data pre suf : list byte) (c : byte) (s : Z) :
  data = pre ++ c :: suf -> s = blen pre -> load data s = Ret c.
Proof.
  intros -> ->; unfold load.
  pose proof (blen_nonneg pre) as Hn.
  destruct (blen pre <? 0) eqn:E; [apply Z.ltb_lt in E; lia|].
  unfold blen; rewrite Nat2Z.id, nth_error_app2 by lia.
  now rewrite Nat.sub_diag.
Qed.

Lemma load_outside (data : list byte) (s : Z) :
  s < 0 \/ blen data <= s -> load data s = Fault.
Proof.
  intros H; unfold load.
  destruct (s <? 0) eqn:E; [reflexivity|].
  apply Z.ltb_ge in E.
  assert (Hn : nth_error data (Z.to_nat s) = None)
    by (apply nth_error_None; unfold blen in H; lia).
  now rewrite Hn.
Qed.

(** ** Cutting a buffer at its NUL bytes *)

Lemma first_nul (l : list byte) :
  no_nul l = true \/
  exists r rest, l = r ++ x00 :: rest /\ no_nul r = true.
Proof.
  induction l as [|c l IH]; [now left|].
  destruct (is_nul c) eqn:Ec.
  - right; exists [], l; apply is_nul_true in Ec; subst; auto.
  - destruct IH as [IH | (r & rest & -> & Hr)].
    + left; cbn; rewrite Ec; exact IH.
    + right; exists (c :: r), rest; split; [reflexivity|].
      cbn; rewrite Ec; exact Hr.
Qed.

Lemma first_unprintable (r : list byte) :
  forallb printable_char r = true \/
  exists p c q, r = p ++ c :: q /\ forallb printable_char p = true
                /\ printable_char c = false.
Proof.
  induction r as [|c r IH]; [now left|].
  destruct (printable_char c) eqn:Ec.
  - destruct IH as [IH | (p & c' & q & -> & Hp & Hc)].
    + left; cbn; rewrite Ec; exact IH.
    + right; exists (c :: p), c', q; repeat split; auto.
      cbn; rewrite Ec; exact Hp.
  - right; exists [], c, r; auto.
Qed.

Lemma nul_split_no_nul (r : list byte) :
  no_nul r = true -> nul_split r = ([], r).
Proof.
  induction r as [|c r IH]; [reflexivity|].
  cbn; intro H; andb_split H Hc Hr.
  apply negb_true_iff in Hc; rewrite (IH Hr), Hc; reflexivity.
Qed.

Lemma nul_split_run (r rest : list byte) :
  no_nul r = true ->
  nul_split (r ++ x00 :: rest) = (r :: runs rest, trailing rest).
Proof.
  unfold runs, trailing.
  induction r as [|c r IH]; intro H.
  - cbn; destruct (nul_split rest); reflexivity.
  - cbn in H; andb_split H Hc Hr.
    apply negb_true_iff in Hc.
    cbn [app nul_split]; rewrite (IH Hr), Hc; reflexivity.
Qed.

Lemma runs_run (r rest : list byte) :
  no_nul r = true -> runs (r ++ x00 :: rest) = r :: runs rest.
Proof. intro H; unfold runs at 1; now rewrite nul_split_run. Qed.

Lemma trailing_run (r rest : list byte) :
  no_nul r = true -> trailing (r ++ x00 :: rest) = trailing rest.
Proof. intro H; unfold trailing at 1; now rewrite nul_split_run. Qed.

Lemma final_byte_nul_snoc (l : list byte) (c : byte) :
  final_byte_nul (l ++ [c]) = is_nul c.
Proof. unfold final_byte_nul; now rewrite rev_unit. Qed.

Lemma final_byte_nul_inv (l : list byte) :
  final_byte_nul l = true -> exists l', l = l' ++ [x00].
Proof.
  destruct l as [|c l] using rev_ind; [discriminate|].
  rewrite final_byte_nul_snoc; intro H; apply is_nul_true in H; subst.
  now exists l.
Qed.

Lemma final_byte_nul_app (l rest : list byte) :
  rest <> [] -> final_byte_nul (l ++ rest) = final_byte_nul rest.
Proof.
  intro H; destruct (exists_last H) as (rest' & c & ->).
  now rewrite app_assoc, !final_byte_nul_snoc.
Qed.

(* a buffer that ends with NUL starts with a NUL-terminated run, and what
   follows is empty or ends with NUL again *)
Lemma first_run (suf : list byte) :
  final_byte_nul suf = true ->
  exists r rest, suf = r ++ x00 :: rest /\ no_nul r = true /\
                 (rest = [] \/ final_byte_nul rest = true).
Proof.
  intro H.
  destruct (first_nul suf) as [Hn | (r & rest & -> & Hr)].
  - exfalso. destruct (final_byte_nul_inv _ H) as (l' & ->).
    unfold no_nul in Hn; rewrite forallb_app in Hn; cbn in Hn.
    now rewrite andb_false_r in Hn.
  - exists r, rest; repeat split; auto.
    destruct rest as [|c rest]; [now left | right].
    change (r ++ x00 :: c :: rest) with (r ++ [x00] ++ c :: rest) in H.
    rewrite app_assoc, final_byte_nul_app in H by discriminate.
    exact H.
Qed.

Lemma trailing_final_nul (b : list byte) :
  final_byte_nul b = true -> trailing b = [].
Proof.
  remember (List.length b) as n eqn:Hn.
  revert b Hn; induction n as [n IH] using lt_wf_ind; intros b Hn H.
  destruct (first_run _ H) as (r & rest & -> & Hr & Hrest).
  rewrite trailing_run by assumption.
  destruct Hrest as [-> | Hrest]; [reflexivity|].
  apply (IH (List.length rest)); auto.
  subst n; rewrite length_app; cbn; lia.
Qed.

(** ** is_printable_string *)

Lemma skip_printable_stops (fuel : nat) (data pre p rest : list byte)
      (c : byte) (s : Z) :
  data = pre ++ p ++ c :: rest ->
  forallb printable_char p = true ->
  printable_char c = false ->
  s = blen pre ->
  (List.length p < fuel)%nat ->
  skip_printable fuel data s (blen data) = Ret (s + blen p).
Proof.
  revert pre p s.
  induction fuel as [|fuel IH]; intros pre p s Hd Hp Hc Hs Hf; [lia|].
  cbn [skip_printable].
  assert (Hlt : (s <? blen data) = true).
  { apply Z.ltb_lt; subst; rewrite !blen_app, blen_cons.
    pose proof (blen_nonneg p); pose proof (blen_nonneg rest); lia. }
  rewrite Hlt.
  destruct p as [|x p].
  - rewrite (load_at data pre rest c s Hd Hs); cbn [bind].
    fold (printable_char c); rewrite Hc, blen_nil; f_equal; lia.
  - cbn in Hp; andb_split Hp Hx Hp.
    rewrite (load_at data pre (p ++ c :: rest) x s Hd Hs); cbn [bind].
    fold (printable_char x); rewrite Hx.
    rewrite (IH (pre ++ [x]) p (s + 1)); auto.
    + rewrite blen_cons; f_equal; lia.
    + now rewrite Hd, <- app_assoc.
    + blen_lia.
    + cbn in Hf; lia.
Qed.

Lemma scan_strings_spec (fuel : nat) (data pre suf : list byte) :
  data = pre ++ suf ->
  suf = [] \/ final_byte_nul suf = true ->
  (List.length suf < fuel)%nat ->
  scan_strings fuel data (blen pre) (blen data) = Ret (forallb run_ok (runs suf)).
Proof.
  revert pre suf.
  induction fuel as [|fuel IH]; intros pre suf Hd Hsuf Hf; [lia|].
  cbn [scan_strings].
  destruct Hsuf as [-> | Hsuf].
  { rewrite Hd, app_nil_r, Z.ltb_irrefl; reflexivity. }
  destruct (first_run _ Hsuf) as (r & rest & -> & Hr & Hrest).
  assert (Hlt : (blen pre <? blen data) = true).
  { apply Z.ltb_lt; rewrite Hd, !blen_app, blen_cons.
    pose proof (blen_nonneg r); pose proof (blen_nonneg rest); lia. }
  rewrite Hlt, runs_run by assumption.
  assert (Hfuel : Z.to_nat (blen data - blen pre) = List.length (r ++ x00 :: rest)).
  { rewrite Hd, blen_app, Z.add_simpl_l; unfold blen; apply Nat2Z.id. }
  rewrite Hfuel.
  destruct (first_unprintable r) as [Hp | (p & c & q & -> & Hp & Hc)].
  - (* the run is printable: the inner loop stops at its NUL *)
    rewrite (skip_printable_stops _ data pre r rest x00 (blen pre)); auto.
    2:{ rewrite length_app; cbn; lia. }
    cbn [bind].
    rewrite (load_at data (pre ++ r) rest x00).
    2:{ now rewrite Hd, <- app_assoc. }
    2:{ now rewrite blen_app. }
    cbn [bind]; rewrite is_nul_x00; cbn [negb orb].
    destruct r as [|x r].
    + rewrite blen_nil, Z.add_0_r, Z.eqb_refl; reflexivity.
    + assert (Hne : (blen pre + blen (x :: r) =? blen pre) = false).
      { apply Z.eqb_neq; rewrite blen_cons; pose proof (blen_nonneg r); lia. }
      rewrite Hne.
      replace (blen pre + blen (x :: r) + 1)
        with (blen (pre ++ (x :: r) ++ [x00]))
        by (blen_lia).
      rewrite (IH (pre ++ (x :: r) ++ [x00]) rest).
      * cbn [forallb]; unfold run_ok at 2.
        cbn [is_empty negb andb]; now rewrite Hp.
      * rewrite Hd, <- !app_assoc; reflexivity.
      * exact Hrest.
      * rewrite length_app in Hf; cbn in Hf; lia.
  - (* the run holds an unprintable character: the inner loop stops there *)
    assert (Hcn : is_nul c = false).
    { unfold no_nul in Hr; rewrite forallb_app in Hr; cbn in Hr.
      apply andb_true_iff in Hr; destruct Hr as [_ Hr].
      apply andb_true_iff in Hr; destruct Hr as [Hr _].
      now apply negb_true_iff in Hr. }
    rewrite (skip_printable_stops _ data pre p (q ++ x00 :: rest) c (blen pre)); auto.
    2:{ now rewrite Hd, <- app_assoc. }
    2:{ rewrite !length_app; cbn; lia. }
    cbn [bind].
    rewrite (load_at data (pre ++ p) (q ++ x00 :: rest) c).
    2:{ now rewrite Hd, <- !app_assoc. }
    2:{ now rewrite blen_app. }
    cbn [bind]; rewrite Hcn; cbn [negb orb forallb].
    unfold run_ok at 1; rewrite forallb_app; cbn [forallb].
    rewrite Hc, andb_false_r, andb_false_r; reflexivity.
Qed.

Lemma is_printable_string_spec (b : list byte) :
  is_printable_string b (blen b) = Ret (well_formed_string_list b).
Proof.
  unfold is_printable_string, well_formed_string_list.
  destruct b as [|c b _] using rev_ind; [reflexivity|].
  assert (Hnz : (blen (b ++ [c]) =? 0) = false).
  { apply Z.eqb_neq; rewrite blen_app, blen_cons, blen_nil.
    pose proof (blen_nonneg b); lia. }
  rewrite Hnz, (load_at (b ++ [c]) b [] c); auto.
  2:{ blen_lia. }
  cbn [bind]; rewrite final_byte_nul_snoc.
  destruct (is_nul c) eqn:Ec; cbn [negb andb]; [|reflexivity].
  assert (Hfin : final_byte_nul (b ++ [c]) = true)
    by now rewrite final_byte_nul_snoc.
  rewrite (trailing_final_nul _ Hfin); cbn [is_empty]; rewrite andb_true_r.
  apply (scan_strings_spec _ (b ++ [c]) [] (b ++ [c])); auto.
  unfold blen; rewrite Nat2Z.id; lia.
Qed.

Lemma to_int_small (z : Z) : 0 <= z <= C.INT_MAX -> C.to_int z = z.
Proof.
  unfold C.to_int, C.INT_MAX; intro H.
  rewrite Z.mod_small by lia; lia.
Qed.

Lemma to_unsigned_small (z : Z) : 0 <= z <= C.INT_MAX -> C.to_unsigned z = z.
Proof.
  unfold C.to_unsigned, C.INT_MAX; intro H.
  apply Z.mod_small; lia.
Qed.

(** ** strlen and the counting loop *)

Lemma strlen_from_run (r rest : list byte) :
  no_nul r = true -> strlen_from (r ++ x00 :: rest) = Ret (blen r).
Proof.
  induction r as [|c r IH]; intro H; [reflexivity|].
  cbn in H; andb_split H Hc Hr.
  apply negb_true_iff in Hc.
  cbn [app strlen_from]; rewrite Hc, (IH Hr); cbn [bind].
  now rewrite blen_cons.
Qed.

Lemma strlen_at (data pre r rest : list byte) (s : Z) :
  data = pre ++ r ++ x00 :: rest -> no_nul r = true -> s = blen pre ->
  strlen data s = Ret (blen r).
Proof.
  intros -> Hr ->; unfold strlen.
  pose proof (blen_nonneg pre).
  destruct (blen pre <? 0) eqn:E; [apply Z.ltb_lt in E; lia|].
  rewrite skipn_blen; now apply strlen_from_run.
Qed.

Lemma cstring_from_run (r rest : list byte) :
  no_nul r = true -> cstring_from (r ++ x00 :: rest) = Ret r.
Proof.
  induction r as [|c r IH]; intro H; [reflexivity|].
  cbn in H; andb_split H Hc Hr.
  apply negb_true_iff in Hc.
  cbn [app cstring_from]; now rewrite Hc, (IH Hr).
Qed.

Lemma cstring_at_run (data pre r rest : list byte) (s : Z) :
  data = pre ++ r ++ x00 :: rest -> no_nul r = true -> s = blen pre ->
  cstring_at data s = Ret r.
Proof.
  intros -> Hr ->; unfold cstring_at.
  pose proof (blen_nonneg pre).
  destruct (blen pre <? 0) eqn:E; [apply Z.ltb_lt in E; lia|].
  rewrite skipn_blen; now apply cstring_from_run.
Qed.

Lemma runs_length_le (b : list byte) :
  (List.length (runs b) <= List.length b)%nat.
Proof.
  unfold runs; induction b as [|c b IH]; [cbn; lia|].
  cbn [nul_split]; destruct (nul_split b) as [rs rest].
  destruct (is_nul c); [cbn in *; lia|].
  destruct rs; cbn in *; lia.
Qed.

Lemma count_strings_spec (fuel : nat) (data pre suf : list byte) (count : Z) :
  data = pre ++ suf ->
  final_byte_nul suf = true ->
  (List.length suf <= fuel)%nat ->
  0 <= count ->
  count + blen suf <= C.INT_MAX ->
  count_strings fuel data (blen pre) (blen data) count
  = Ret (count + Z.of_nat (List.length (runs suf))).
Proof.
  revert pre suf count.
  induction fuel as [|fuel IH]; intros pre suf count Hd Hsuf Hf Hc Hb.
  { destruct suf; [discriminate | cbn in Hf; lia]. }
  destruct (first_run _ Hsuf) as (r & rest & -> & Hr & Hrest).
  cbn [count_strings].
  rewrite (strlen_at data pre r rest (blen pre) Hd Hr eq_refl); cbn [bind].
  rewrite runs_run by assumption; cbn [List.length].
  rewrite blen_app, blen_cons in Hb.
  pose proof (blen_nonneg r); pose proof (blen_nonneg rest).
  rewrite to_unsigned_small by lia.
  destruct Hrest as [-> | Hrest].
  - assert (Hge : (blen pre + (blen r + 1) <? blen data) = false).
    { apply Z.ltb_ge; rewrite Hd, !blen_app, blen_cons, blen_nil; lia. }
    rewrite Hge; cbn; f_equal; lia.
  - assert (Hlt : (blen pre + (blen r + 1) <? blen data) = true).
    { apply Z.ltb_lt; rewrite Hd, !blen_app, blen_cons.
      destruct rest; [discriminate | rewrite blen_cons; pose proof (blen_nonneg rest); lia]. }
    rewrite Hlt.
    replace (blen pre + (blen r + 1)) with (blen (pre ++ r ++ [x00]))
      by (blen_lia).
    rewrite (IH (pre ++ r ++ [x00]) rest (count + 1)); try lia; auto.
    + f_equal; lia.
    + rewrite Hd, <- !app_assoc; reflexivity.
    + rewrite length_app in Hf; cbn in Hf; lia.
Qed.

(** ** dtfs_get_prop_type follows the documented rule *)

Lemma dtfs_get_prop_type_spec (b : list byte) (count : bool) :
  blen b <= C.INT_MAX ->
  dtfs_get_prop_type b (blen b) count
  = Ret (prop_code (classify_rule b), if count then count_rule b else None).
Proof.
  intro Hb; pose proof (blen_nonneg b) as Hn.
  unfold dtfs_get_prop_type, count_rule, classify_rule.
  destruct (blen b =? 0) eqn:E0; [now destruct count|].
  rewrite to_int_small, is_printable_string_spec by lia; cbn [bind].
  destruct (well_formed_string_list b) eqn:Ewf.
  - destruct count; [|reflexivity].
    unfold well_formed_string_list in Ewf.
    apply andb_true_iff in Ewf; destruct Ewf as [Ewf _].
    apply andb_true_iff in Ewf; destruct Ewf as [Hfin _].
    rewrite (count_strings_spec _ b [] b 0); auto; try lia.
    unfold blen; rewrite Nat2Z.id; lia.
  - destruct (blen b mod 4 =? 0); destruct count; try reflexivity.
    + rewrite to_unsigned_small; [reflexivity|].
      unfold C.INT_MAX in *; split; [apply Z.div_pos; lia|].
      apply Z.div_le_upper_bound; lia.
    + rewrite to_unsigned_small by lia; reflexivity.
Qed.

(** ** dtfs_string_get *)

Lemma to_unsigned_id (z : Z) : 0 <= z < 4294967296 -> C.to_unsigned z = z.
Proof. intro H; unfold C.to_unsigned; now apply Z.mod_small. Qed.

Lemma runs_nonempty_inv (suf : list byte) :
  runs suf <> [] ->
  exists r rest, suf = r ++ x00 :: rest /\ no_nul r = true.
Proof.
  intro H; destruct (first_nul suf) as [Hn | Hex]; [|exact Hex].
  exfalso; apply H; unfold runs; now rewrite nul_split_no_nul.
Qed.

Lemma string_walk_spec (fuel : nat) (data pre suf : list byte) (cur n : Z) :
  data = pre ++ suf ->
  final_byte_nul suf = true ->
  (List.length suf <= fuel)%nat ->
  0 <= cur <= n -> n < 4294967296 ->
  string_walk fuel data (blen pre) (blen data) cur n
  = if n - cur <? Z.of_nat (List.length (runs suf))
    then Ret (0, Some (blen pre + run_offset (runs suf) (Z.to_nat (n - cur))))
    else Ret (-1, None).
Proof.
  revert pre suf cur.
  induction fuel as [|fuel IH]; intros pre suf cur Hd Hsuf Hf Hc Hn.
  { destruct suf; [discriminate | cbn in Hf; lia]. }
  destruct (first_run _ Hsuf) as (r & rest & -> & Hr & Hrest).
  cbn [string_walk]; rewrite runs_run by assumption; cbn [List.length].
  destruct (cur =? n) eqn:Ecur.
  - apply Z.eqb_eq in Ecur; subst cur.
    rewrite Z.sub_diag; cbn [Z.to_nat run_offset].
    assert (Hlt : (0 <? Z.of_nat (S (List.length (runs rest)))) = true)
      by (apply Z.ltb_lt; lia).
    rewrite Hlt; do 3 f_equal; lia.
  - apply Z.eqb_neq in Ecur.
    rewrite (strlen_at data pre r rest (blen pre) Hd Hr eq_refl); cbn [bind].
    rewrite to_unsigned_id by lia.
    pose proof (blen_nonneg r); pose proof (blen_nonneg rest).
    destruct Hrest as [-> | Hrest].
    + assert (Hge : (blen pre + (blen r + 1) <? blen data) = false).
      { apply Z.ltb_ge; rewrite Hd, !blen_app, blen_cons, blen_nil; lia. }
      rewrite Hge.
      assert (Hno : (n - cur <? Z.of_nat (S (List.length (runs [])))) = false)
        by (apply Z.ltb_ge; cbn; lia).
      now rewrite Hno.
    + assert (Hlt : (blen pre + (blen r + 1) <? blen data) = true).
      { apply Z.ltb_lt; rewrite Hd, !blen_app, blen_cons.
        destruct rest; [discriminate | rewrite blen_cons; pose proof (blen_nonneg rest); lia]. }
      rewrite Hlt.
      replace (blen pre + (blen r + 1)) with (blen (pre ++ r ++ [x00]))
        by (blen_lia).
      rewrite (IH (pre ++ r ++ [x00]) rest (cur + 1)); try lia; auto.
      2:{ rewrite Hd, <- !app_assoc; reflexivity. }
      2:{ rewrite length_app in Hf; cbn in Hf; lia. }
      replace (n - (cur + 1) <? Z.of_nat (List.length (runs rest)))
        with (n - cur <? Z.of_nat (S (List.length (runs rest))))
        by (rewrite Nat2Z.inj_succ;
            destruct (n - cur <? Z.succ (Z.of_nat (List.length (runs rest)))) eqn:E1;
            [apply Z.ltb_lt in E1; symmetry; apply Z.ltb_lt; lia
            |apply Z.ltb_ge in E1; symmetry; apply Z.ltb_ge; lia]).
      destruct (n - cur <? Z.of_nat (S (List.length (runs rest)))); [|reflexivity].
      replace (Z.to_nat (n - cur)) with (S (Z.to_nat (n - (cur + 1)))) by lia.
      cbn [run_offset]; do 3 f_equal.
      blen_lia.
Qed.

(* the pointer computed for index k designates the k-th run *)
Lemma cstring_at_run_offset (k : nat) (data pre suf : list byte) :
  data = pre ++ suf ->
  (k < List.length (runs suf))%nat ->
  cstring_at data (blen pre + run_offset (runs suf) k) = Ret (nth k (runs suf) []).
Proof.
  revert pre suf; induction k as [|k IH]; intros pre suf Hd Hk.
  - destruct (runs_nonempty_inv suf) as (r & rest & -> & Hr).
    { intro E; rewrite E in Hk; cbn in Hk; lia. }
    rewrite runs_run by assumption; cbn [run_offset nth].
    rewrite Z.add_0_r; now apply (cstring_at_run data pre r rest).
  - destruct (runs_nonempty_inv suf) as (r & rest & -> & Hr).
    { intro E; rewrite E in Hk; cbn in Hk; lia. }
    rewrite runs_run in * by assumption; cbn [run_offset nth].
    replace (blen pre + (blen r + 1 + run_offset (runs rest) k))
      with (blen (pre ++ r ++ [x00]) + run_offset (runs rest) k)
      by (blen_lia).
    apply IH; [rewrite Hd, <- !app_assoc; reflexivity | cbn in Hk; lia].
Qed.

Lemma dtfs_string_get_spec (b : list byte) (n : Z) :
  blen b <= C.INT_MAX -> 0 <= n < 4294967296 ->
  dtfs_string_get b (blen b) n true
  = match classify_rule b with
    | Strings =>
        if n <? Z.of_nat (List.length (runs b))
        then Ret (0, Some (run_offset (runs b) (Z.to_nat n)))
        else Ret (-1, None)
    | _ => Ret (-1, None)
    end.
Proof.
  intros Hb Hn; unfold dtfs_string_get; cbn [negb].
  rewrite dtfs_get_prop_type_spec by assumption; cbn [bind fst].
  destruct (classify_rule b) eqn:Ec; try reflexivity.
  cbn [prop_code negb]; change (DTFS_PROP_STRINGS =? DTFS_PROP_STRINGS) with true.
  cbn [negb].
  assert (Hfin : final_byte_nul b = true).
  { unfold classify_rule in Ec.
    destruct (blen b =? 0); [discriminate|].
    destruct (well_formed_string_list b) eqn:Ewf.
    - unfold well_formed_string_list in Ewf.
      apply andb_true_iff in Ewf; destruct Ewf as [Ewf _].
      now apply andb_true_iff in Ewf.
    - destruct (blen b mod 4 =? 0); discriminate. }
  rewrite (string_walk_spec _ b [] b 0 n); auto; try lia.
  - now rewrite Z.sub_0_r, blen_nil, Z.add_0_l.
  - unfold blen; rewrite Nat2Z.id; lia.
Qed.

(** ** dtfs_word_get *)

Lemma load_be32_at (data pre rest : list byte) (b0 b1 b2 b3 : byte) (off : Z) :
  data = pre ++ b0 :: b1 :: b2 :: b3 :: rest -> off = blen pre ->
  load_be32 data off
  = Ret (Z.lor (Z.shiftl (byte_val b0) 24)
               (Z.lor (Z.shiftl (byte_val b1) 16)
                      (Z.lor (Z.shiftl (byte_val b2) 8) (byte_val b3)))).
Proof.
  intros Hd Ho; unfold load_be32.
  rewrite (load_at data pre (b1 :: b2 :: b3 :: rest) b0 off Hd Ho); cbn [bind].
  rewrite (load_at data (pre ++ [b0]) (b2 :: b3 :: rest) b1).
  2:{ rewrite Hd, <- app_assoc; reflexivity. }
  2:{ blen_lia. }
  cbn [bind].
  rewrite (load_at data (pre ++ [b0; b1]) (b3 :: rest) b2).
  2:{ rewrite Hd, <- app_assoc; reflexivity. }
  2:{ blen_lia. }
  cbn [bind].
  rewrite (load_at data (pre ++ [b0; b1; b2]) rest b3).
  2:{ rewrite Hd, <- app_assoc; reflexivity. }
  2:{ blen_lia. }
  reflexivity.
Qed.

Lemma lor_shiftl_add (a v k : Z) :
  0 <= k -> 0 <= v < 2 ^ k -> Z.lor (Z.shiftl a k) v = a * 2 ^ k + v.
Proof.
  intros Hk Hv.
  assert (Hland : Z.land (Z.shiftl a k) v = 0).
  { apply Z.bits_inj'; intros i Hi.
    rewrite Z.land_spec, Z.bits_0.
    destruct (Z.lt_ge_cases i k) as [Hlt | Hge].
    - now rewrite Z.shiftl_spec_low.
    - rewrite <- (Z.mod_small v (2 ^ k)) by lia.
      rewrite Z.mod_pow2_bits_high by lia.
      apply andb_false_r. }
  rewrite <- Z.lxor_lor by assumption.
  rewrite <- Z.add_nocarry_lxor by assumption.
  now rewrite Z.shiftl_mul_pow2.
Qed.

Lemma byte_val_range (c : byte) : 0 <= byte_val c < 256.
Proof.
  unfold byte_val; pose proof (Byte.to_N_bounded c) as H.
  lia.
Qed.

Lemma be32_lor (b0 b1 b2 b3 : byte) :
  Z.lor (Z.shiftl (byte_val b0) 24)
        (Z.lor (Z.shiftl (byte_val b1) 16)
               (Z.lor (Z.shiftl (byte_val b2) 8) (byte_val b3)))
  = be32 b0 b1 b2 b3.
Proof.
  pose proof (byte_val_range b0); pose proof (byte_val_range b1).
  pose proof (byte_val_range b2); pose proof (byte_val_range b3).
  unfold be32.
  rewrite (lor_shiftl_add (byte_val b2) (byte_val b3) 8) by lia.
  rewrite (lor_shiftl_add (byte_val b1) _ 16) by lia.
  rewrite (lor_shiftl_add (byte_val b0) _ 24) by lia.
  lia.
Qed.

Lemma to_size_t_small (z : Z) : 0 <= z < 18446744073709551616 -> C.to_size_t z = z.
Proof. intro H; unfold C.to_size_t; now apply Z.mod_small. Qed.

(* what the guards of dtfs_word_get let through *)
Lemma dtfs_word_get_guards (b : list byte) (n : Z) :
  blen b <= C.INT_MAX -> 0 <= n < 4294967296 ->
  dtfs_word_get b (blen b) n true
  = match classify_rule b with
    | Words =>
        if n * 4 >? blen b then Ret (-1, None)
        else let* w := load_be32 b (4 * n) in Ret (0, Some w)
    | _ => Ret (-1, None)
    end.
Proof.
  intros Hb Hn; unfold dtfs_word_get; cbn [negb].
  rewrite dtfs_get_prop_type_spec by assumption; cbn [bind fst].
  rewrite to_size_t_small by lia.
  destruct (classify_rule b); reflexivity.
Qed.

(* a word that lies inside the buffer is decoded most significant byte first *)
Lemma dtfs_word_get_in_range (b pre rest : list byte) (b0 b1 b2 b3 : byte) (n : Z) :
  blen b <= C.INT_MAX -> 0 <= n ->
  classify_rule b = Words ->
  b = pre ++ b0 :: b1 :: b2 :: b3 :: rest -> blen pre = 4 * n ->
  dtfs_word_get b (blen b) n true = Ret (0, Some (be32 b0 b1 b2 b3)).
Proof.
  intros Hb Hn Hc Hd Hp.
  assert (Hlen : blen b = 4 * n + 4 + blen rest).
  { rewrite Hd at 1; rewrite blen_app, !blen_cons; lia. }
  pose proof (blen_nonneg rest).
  rewrite dtfs_word_get_guards by (unfold C.INT_MAX in *; lia).
  rewrite Hc.
  assert (Hgt : (n * 4 >? blen b) = false).
  { rewrite Z.gtb_ltb; apply Z.ltb_ge; lia. }
  rewrite Hgt, (load_be32_at b pre rest b0 b1 b2 b3) by auto.
  cbn [bind]; now rewrite be32_lor.
Qed.

(* the index one past the last word passes the guard [n * 4 > len] and
   the read leaves the buffer *)
Lemma dtfs_word_get_one_past (b : list byte) (n : Z) :
  blen b <= C.INT_MAX ->
  classify_rule b = Words -> n * 4 = blen b ->
  dtfs_word_get b (blen b) n true = Fault.
Proof.
  intros Hb Hc Hn; pose proof (blen_nonneg b).
  rewrite dtfs_word_get_guards by (unfold C.INT_MAX in *; lia).
  rewrite Hc.
  assert (Hgt : (n * 4 >? blen b) = false).
  { rewrite Z.gtb_ltb; apply Z.ltb_ge; lia. }
  rewrite Hgt; unfold load_be32.
  rewrite load_outside by lia; reflexivity.
Qed.

(** ** The fuel is sufficient

    Whatever the buffer and the length, no loop of the embedding runs out
    of fuel: every iteration moves the pointer forward and the fuel
    exceeds the distance to the end. *)

Lemma load_not_out_of_fuel (data : list byte) (i : Z) : load data i <> OutOfFuel.
Proof.
  unfold load; destruct (i <? 0); [discriminate|].
  destruct (nth_error data (Z.to_nat i)); discriminate.
Qed.

Lemma skip_printable_fuel (fuel : nat) (data : list byte) (s se : Z) :
  (Z.to_nat (se - s) < fuel)%nat ->
  skip_printable fuel data s se <> OutOfFuel /\
  forall s1, skip_printable fuel data s se = Ret s1 -> s <= s1.
Proof.
  revert s; induction fuel as [|fuel IH]; intros s Hf; [lia|].
  cbn [skip_printable].
  destruct (s <? se) eqn:E; [|split; [discriminate | intros s1 H; injection H; lia]].
  apply Z.ltb_lt in E.
  pose proof (load_not_out_of_fuel data s) as Hl.
  destruct (load data s) as [c| |]; cbn [bind]; [| |contradiction].
  - destruct (negb (is_nul c) && isprint c).
    + destruct (IH (s + 1)) as [Hno Hle]; [lia|].
      split; [exact Hno | intros s1 H; apply Hle in H; lia].
    + split; [discriminate | intros s1 H; injection H; lia].
  - split; [discriminate | intros; discriminate].
Qed.

Lemma scan_strings_fuel (fuel : nat) (data : list byte) (s se : Z) :
  (Z.to_nat (se - s) < fuel)%nat -> scan_strings fuel data s se <> OutOfFuel.
Proof.
  revert s; induction fuel as [|fuel IH]; intros s Hf; [lia|].
  cbn [scan_strings].
  destruct (s <? se) eqn:E; [|discriminate].
  apply Z.ltb_lt in E.
  destruct (skip_printable_fuel (S (Z.to_nat (se - s))) data s se) as [Hno Hle];
    [lia|].
  destruct (skip_printable _ data s se) as [s1| |]; cbn [bind];
    [|discriminate | contradiction].
  specialize (Hle s1 eq_refl).
  pose proof (load_not_out_of_fuel data s1) as Hl.
  destruct (load data s1) as [c| |]; cbn [bind]; [|discriminate | contradiction].
  destruct (negb (is_nul c) || (s1 =? s)); [discriminate|].
  apply IH; lia.
Qed.

Lemma is_printable_string_fuel (data : list byte) (len : Z) :
  is_printable_string data len <> OutOfFuel.
Proof.
  unfold is_printable_string.
  destruct (len =? 0); [discriminate|].
  pose proof (load_not_out_of_fuel data (len - 1)) as Hl.
  destruct (load data (len - 1)) as [c| |]; cbn [bind]; [|discriminate | contradiction].
  destruct (negb (is_nul c)); [discriminate|].
  apply scan_strings_fuel; lia.
Qed.

Lemma strlen_from_result (l : list byte) :
  strlen_from l <> OutOfFuel /\ forall n, strlen_from l = Ret n -> 0 <= n.
Proof.
  induction l as [|c l [Hno Hle]]; [split; [discriminate | intros; discriminate]|].
  cbn [strlen_from]; destruct (is_nul c).
  - split; [discriminate | intros n H; injection H; lia].
  - destruct (strlen_from l) as [k| |]; cbn [bind].
    + split; [discriminate | intros n H; injection H; specialize (Hle k eq_refl); lia].
    + split; [discriminate | intros; discriminate].
    + contradiction.
Qed.

Lemma strlen_result (data : list byte) (s : Z) :
  strlen data s <> OutOfFuel /\ forall n, strlen data s = Ret n -> 0 <= n.
Proof.
  unfold strlen; destruct (s <? 0); [split; [discriminate | intros; discriminate]|].
  apply strlen_from_result.
Qed.

Lemma count_strings_fuel (fuel : nat) (data : list byte) (s len count : Z) :
  (Z.to_nat (len - s) < fuel)%nat ->
  count_strings fuel data s len count <> OutOfFuel.
Proof.
  revert s count; induction fuel as [|fuel IH]; intros s count Hf; [lia|].
  cbn [count_strings].
  destruct (strlen_result data s) as [Hno Hle].
  destruct (strlen data s) as [k| |]; cbn [bind]; [|discriminate | contradiction].
  specialize (Hle k eq_refl).
  destruct (s + (k + 1) <? len) eqn:E; [|discriminate].
  apply Z.ltb_lt in E; apply IH; lia.
Qed.

Lemma string_walk_fuel (fuel : nat) (data : list byte) (s len cur n : Z) :
  (Z.to_nat (len - s) < fuel)%nat ->
  string_walk fuel data s len cur n <> OutOfFuel.
Proof.
  revert s cur; induction fuel as [|fuel IH]; intros s cur Hf; [lia|].
  cbn [string_walk].
  destruct (cur =? n); [discriminate|].
  destruct (strlen_result data s) as [Hno Hle].
  destruct (strlen data s) as [k| |]; cbn [bind]; [|discriminate | contradiction].
  specialize (Hle k eq_refl).
  destruct (s + (k + 1) <? len) eqn:E; [|discriminate].
  apply Z.ltb_lt in E; apply IH; lia.
Qed.

Lemma dtfs_get_prop_type_fuel (data : list byte) (len : Z) (count : bool) :
  dtfs_get_prop_type data len count <> OutOfFuel.
Proof.
  unfold dtfs_get_prop_type.
  destruct (len =? 0); [discriminate|].
  pose proof (is_printable_string_fuel data (C.to_int len)) as Hp.
  destruct (is_printable_string data (C.to_int len)) as [[|]| |]; cbn [bind];
    try discriminate; try contradiction.
  - destruct count; [|discriminate].
    pose proof (count_strings_fuel (S (Z.to_nat len)) data 0 len 0) as Hc.
    destruct (count_strings _ data 0 len 0); cbn [bind]; try discriminate.
    exfalso; apply Hc; [rewrite Z.sub_0_r; lia | reflexivity].
  - destruct (len mod 4 =? 0); discriminate.
Qed.

Lemma dtfs_string_get_fuel (data : list byte) (len n : Z) (str : bool) :
  dtfs_string_get data len n str <> OutOfFuel.
Proof.
  unfold dtfs_string_get; destruct (negb str); [discriminate|].
  pose proof (dtfs_get_prop_type_fuel data len false) as Ht.
  destruct (dtfs_get_prop_type data len false) as [t| |]; cbn [bind];
    [|discriminate | contradiction].
  destruct (negb (fst t =? DTFS_PROP_STRINGS)); [discriminate|].
  apply string_walk_fuel; lia.
Qed.

Lemma dtfs_word_get_fuel (data : list byte) (len n : Z) (word : bool) :
  dtfs_word_get data len n word <> OutOfFuel.
Proof.
  unfold dtfs_word_get; destruct (negb word); [discriminate|].
  pose proof (dtfs_get_prop_type_fuel data len false) as Ht.
  destruct (dtfs_get_prop_type data len false) as [t| |]; cbn [bind];
    [|discriminate | contradiction].
  destruct (negb (fst t =? DTFS_PROP_WORDS)); [discriminate|].
  destruct (C.to_size_t (n * 4) >? len); [discriminate|].
  unfold load_be32.
  pose proof (load_not_out_of_fuel data (4 * n)).
  pose proof (load_not_out_of_fuel data (4 * n + 1)).
  pose proof (load_not_out_of_fuel data (4 * n + 2)).
  pose proof (load_not_out_of_fuel data (4 * n + 3)).
  destruct (load data (4 * n)); cbn [bind]; try discriminate; try contradiction.
  destruct (load data (4 * n + 1)); cbn [bind]; try discriminate; try contradiction.
  destruct (load data (4 * n + 2)); cbn [bind]; try discriminate; try contradiction.
  destruct (load data (4 * n + 3)); cbn [bind]; try discriminate; try contradiction.
Qed.

(** ** The path builder *)

Lemma dtfs_concat_path_empty_base (a : bool) (m : Z -> bool) (path : option string) :
  dtfs_concat_path a m (Some ""%string) path = Ret None.
Proof. reflexivity. Qed.

Lemma slen_nonempty (b : string) : b <> ""%string -> (slen b <? 1) = false.
Proof.
  intro H; apply Z.ltb_ge; unfold slen.
  destruct b; [contradiction | cbn [String.length]; lia].
Qed.

(* the join performed by the default build, when the allocation succeeds *)
Lemma dtfs_concat_path_join (m : Z -> bool) (b : string) (path : option string) :
  b <> ""%string -> (forall n, m n = true) ->
  dtfs_concat_path false m (Some b) path
  = Ret (Some match path with
              | None => b
              | Some p =>
                  if negb (is_slash (last_char b)) && negb (is_slash (first_char p))
                  then (b ++ "/" ++ p)%string
                  else (b ++ p)%string
              end).
Proof.
  intros Hb Hm; unfold dtfs_concat_path.
  rewrite (slen_nonempty b Hb).
  destruct path as [p|]; now rewrite Hm.
Qed.

(* a failed allocation is the only other way for the join to return NULL *)
Lemma dtfs_concat_path_some (a : bool) (m : Z -> bool) (b : string)
      (path : option string) :
  dtfs_concat_path a m (Some b) path <> Fault /\
  dtfs_concat_path a m (Some b) path <> OutOfFuel.
Proof.
  unfold dtfs_concat_path.
  destruct (slen b <? 1); [split; discriminate|].
  destruct path as [p|].
  - destruct a.
    + destruct (m _); split; discriminate.
    + destruct (m _); split; discriminate.
  - destruct (m _); split; discriminate.
Qed.

(** ** The traversal engine *)

Lemma dtfs_check_path_returns (e : env) (base path : option string) :
  exists t ev, dtfs_check_path e base path = Ret (t, ev) /\ visits ev = [].
Proof.
  unfold dtfs_check_path.
  destruct base as [b|]; [|now exists (-1), []].
  destruct (dtfs_concat_path_some (env_asprintf e) (env_malloc e) b path) as [Hf Ho].
  destruct (dtfs_concat_path _ _ (Some b) path) as [[str|]| |]; try contradiction;
    cbn [bind].
  - destruct (env_stat e str) as [s|]; eauto.
  - eauto.
Qed.

Lemma visits_app (tr tr' : list event) : visits (tr ++ tr') = visits tr ++ visits tr'.
Proof. apply filter_app. Qed.

Lemma dtfs_check_path_property (e : env) (base path : option string)
      (ev : list event) :
  dtfs_check_path e base path = Ret (DTFS_PATH_PROPERTY, ev) ->
  exists b str s,
    base = Some b /\
    dtfs_concat_path (env_asprintf e) (env_malloc e) (Some b) path = Ret (Some str) /\
    env_stat e str = Some s /\ st_mode s = S_IFREG /\ ev = [EvStat str].
Proof.
  unfold dtfs_check_path.
  destruct base as [b|]; [|discriminate].
  destruct (dtfs_concat_path _ _ (Some b) path) as [[str|]| |] eqn:Ej; cbn [bind];
    try discriminate.
  destruct (env_stat e str) as [s|] eqn:Es; [|discriminate].
  unfold DTFS_PATH_NODE, DTFS_PATH_PROPERTY, DTFS_PATH_ERROR.
  destruct (st_mode s) eqn:Em; try discriminate.
  intro H; injection H as <-; exists b, str, s; repeat split; auto.
Qed.

(* a property that stat reports as a regular file classifies as a property *)
Lemma dtfs_check_path_regular (e : env) (b : string) (path : option string)
      (str : string) (s : stat_buf) :
  dtfs_concat_path (env_asprintf e) (env_malloc e) (Some b) path = Ret (Some str) ->
  env_stat e str = Some s -> st_mode s = S_IFREG ->
  dtfs_check_path e (Some b) path = Ret (DTFS_PATH_PROPERTY, [EvStat str]).
Proof.
  intros Hj Hs Hm; unfold dtfs_check_path.
  now rewrite Hj; cbn [bind]; rewrite Hs, Hm.
Qed.

(* what dtfs_list_node does when the directory cannot be opened *)
Lemma dtfs_list_node_opendir_fails (e : env) (b : string) (path : option string)
      (str : string) :
  dtfs_concat_path (env_asprintf e) (env_malloc e) (Some b) path = Ret (Some str) ->
  env_opendir e str = None ->
  dtfs_list_node e (Some b) path true
  = Ret (0, [EvOpendir str;
             EvStderr "dtfs_list_node: Couldn't open the directory"]).
Proof.
  intros Hj Ho; unfold dtfs_list_node; cbn [negb].
  now rewrite Hj; cbn [bind]; rewrite Ho.
Qed.

(* what dtfs_list_node does when the join fails *)
Lemma dtfs_list_node_join_fails (e : env) (base path : option string) :
  base = None \/
  dtfs_concat_path (env_asprintf e) (env_malloc e) base path = Ret None ->
  exists tr, dtfs_list_node e base path true = Ret (-1, tr) /\ visits tr = [].
Proof.
  unfold dtfs_list_node; cbn [negb].
  intros [-> | Hj]; [now exists []|].
  destruct base as [b|]; [|now exists []].
  rewrite Hj; cbn [bind]; eauto.
Qed.


(** ** The documented examples, evaluated *)

Example words_example :
  dtfs_get_prop_type buf_w12 8 true = Ret (DTFS_PROP_WORDS, Some 2) /\
  dtfs_word_get buf_w12 8 0 true = Ret (0, Some 1) /\
  dtfs_word_get buf_w12 8 1 true = Ret (0, Some 2).
Proof. split; [|split]; reflexivity. Qed.

Example strings_example :
  dtfs_get_prop_type buf_a_b 4 true = Ret (DTFS_PROP_STRINGS, Some 2) /\
  runs buf_a_b = [["a"%byte]; ["b"%byte]].
Proof. split; reflexivity. Qed.

Example single_nul_example :
  dtfs_get_prop_type [x00] 1 true = Ret (DTFS_PROP_BYTES, Some 1).
Proof. reflexivity. Qed.

Example unprintable_example :
  dtfs_get_prop_type [x01; x02; x03] 3 true = Ret (DTFS_PROP_BYTES, Some 3) /\
  dtfs_word_get [x01; x02; x03] 3 0 true = Ret (-1, None) /\
  dtfs_string_get [x01; x02; x03] 3 0 true = Ret (-1, None).
Proof. split; [|split]; reflexivity. Qed.

Example list_node_example :
  dtfs_list_node sample_env (Some "/dt"%string) None true
  = Ret (0, [EvOpendir "/dt"; EvNewSubNode "/dt" "model";
             EvNewSubNode "/dt" "ranges"; EvNewSubNode "/dt" "cpus"]) /\
  dtfs_list_node sample_env (Some "/dt"%string) (Some "cpus"%string) true
  = Ret (0, [EvOpendir "/dt/cpus"]).
Proof. split; reflexivity. Qed.

Example concat_path_example :
  dtfs_concat_path false (fun _ => true) (Some "/dt"%string) (Some "cpus"%string)
  = Ret (Some "/dt/cpus"%string) /\
  dtfs_concat_path false (fun _ => true) (Some "/dt/"%string) (Some "cpus"%string)
  = Ret (Some "/dt/cpus"%string) /\
  dtfs_concat_path false (fun _ => true) (Some "/dt"%string) (Some "/cpus"%string)
  = Ret (Some "/dt/cpus"%string) /\
  dtfs_concat_path true (fun _ => true) (Some "/dt"%string) (Some "/cpus"%string)
  = Ret (Some "/dt//cpus"%string).
Proof. repeat split. Qed.

(** ** Claims about the traversal engine and the path builder *)

(** C10: a null visitor is not an error.  For every environment, base and
    path, [dtfs_list_node] with a null child callback and [dtfs_prop_get]
    with a null property callback return 0 at once; the trace of the call
    is empty, so the backing store is not consulted and nothing is
    printed. *)
Theorem null_visitor_returns_success (e : env) (base path : option string) :
  dtfs_list_node e base path false = Ret (0, []) /\
  dtfs_prop_get e base path false = Ret (0, []).
Proof. split; reflexivity. Qed.



(** C6: [dtfs_prop_get] with a non-null visitor, on a property (the join
    succeeds and stat reports a regular file) whose stored buffer is
    [buf], returns 0 and invokes the visitor exactly once: with the null
    buffer and length 0 when [buf] is empty, with the whole of [buf] and
    its length otherwise (the file opens and the copy can be allocated). *)
Theorem prop_get_visits_once (e : env) (b : string) (path : option string)
        (str : string) (buf : list byte) :
  dtfs_concat_path (env_asprintf e) (env_malloc e) (Some b) path = Ret (Some str) ->
  env_stat e str = Some {| st_mode := S_IFREG; st_size := blen buf |} ->
  (buf <> [] -> env_fopen e str = Some buf /\ env_malloc e (blen buf) = true) ->
  exists tr,
    dtfs_prop_get e (Some b) path true = Ret (0, tr) /\
    visits tr = [EvPropContent str (if is_empty buf then None else Some buf)
                               (blen buf)].
Proof.
  intros Hj Hs Hbuf; unfold dtfs_prop_get; cbn [negb].
  rewrite (dtfs_check_path_regular e b path str _ Hj Hs eq_refl).
  cbn [bind fst snd]; change (DTFS_PATH_PROPERTY =? DTFS_PATH_PROPERTY) with true.
  cbn [negb]; rewrite Hj; cbn [bind]; rewrite Hs; cbn [st_size].
  destruct buf as [|c buf].
  - rewrite blen_nil; cbn; eauto.
  - destruct Hbuf as [Ho Hm]; [discriminate|].
    assert (Hpos : (blen (c :: buf) >? 0) = true).
    { rewrite Z.gtb_ltb; apply Z.ltb_lt; rewrite blen_cons.
      pose proof (blen_nonneg buf); lia. }
    rewrite Hpos, Ho, Hm; cbn [negb].
    assert (Hall : firstn (Z.to_nat (blen (c :: buf))) (c :: buf) = c :: buf).
    { unfold blen; rewrite Nat2Z.id; apply firstn_all. }
    rewrite Hall, Z.eqb_refl; cbn [negb is_empty].
    eexists; split; [reflexivity|reflexivity].
Qed.

(* the empty property ranges and the four-byte property model *)
Lemma prop_get_visits_once_witness :
  (exists tr,
      dtfs_prop_get sample_env (Some "/dt"%string) (Some "ranges"%string) true = Ret (0, tr) /\
      visits tr = [EvPropContent "/dt/ranges" None 0]) /\
  (exists tr,
      dtfs_prop_get sample_env (Some "/dt"%string) (Some "model"%string) true = Ret (0, tr) /\
      visits tr = [EvPropContent "/dt/model" (Some buf_a_b) 4]).
Proof.
  split.
  - apply (prop_get_visits_once sample_env "/dt" (Some "ranges"%string) "/dt/ranges" []);
      [reflexivity | reflexivity | intro H; now elim H].
  - apply (prop_get_visits_once sample_env "/dt" (Some "model"%string) "/dt/model" buf_a_b);
      [reflexivity | reflexivity | intros _; split; reflexivity].
Defined.

(** C5, evaluated where the code departs from it: on a base whose
    directory cannot be opened, [dtfs_list_node] with a non-null visitor
    prints its diagnostic and returns 0, not a failure indicator.  (When
    the join fails it does return -1: [dtfs_list_node_join_fails].) *)
Theorem list_node_unopenable_returns_success :
  dtfs_list_node sample_env (Some "/nonexistent"%string) None true
  = Ret (0, [EvOpendir "/nonexistent";
             EvStderr "dtfs_list_node: Couldn't open the directory"]).
Proof. reflexivity. Qed.

(** C8, evaluated where the code departs from it: with an absent (null)
    base [dtfs_concat_path] does not return; [strlen(base)] is evaluated
    before the test of [base] and reads through the null pointer.  (An
    empty base returns NULL: [dtfs_concat_path_empty_base]; the join of
    the default build is [dtfs_concat_path_join].) *)
Theorem concat_path_null_base_faults (a : bool) (m : Z -> bool)
        (path : option string) :
  dtfs_concat_path a m None path = Fault.
Proof. reflexivity. Qed.

(** ** Claims about the classifier and the decoders *)

Lemma runs_tile (b : list byte) :
  List.concat (map (fun r => r ++ [x00]) (runs b)) ++ trailing b = b.
Proof.
  unfold runs, trailing; induction b as [|c b IH]; [reflexivity|].
  cbn [nul_split]; destruct (nul_split b) as [rs rest]; cbn [fst snd] in IH.
  destruct (is_nul c) eqn:Ec.
  - apply is_nul_true in Ec; subst c; cbn; now rewrite IH.
  - destruct rs as [|r rs]; cbn in *; now rewrite IH.
Qed.

Lemma classify_rule_strings (b : list byte) :
  classify_rule b = Strings <-> blen b <> 0 /\ well_formed_string_list b = true.
Proof.
  unfold classify_rule.
  destruct (blen b =? 0) eqn:E0.
  - apply Z.eqb_eq in E0; split; [discriminate | intros [H _]; contradiction].
  - apply Z.eqb_neq in E0.
    destruct (well_formed_string_list b); [tauto|].
    destruct (blen b mod 4 =? 0); split; try discriminate; intros [_ H]; discriminate.
Qed.

Lemma well_formed_tiles (b : list byte) :
  well_formed_string_list b = true ->
  List.concat (map (fun r => r ++ [x00]) (runs b)) = b /\
  forallb run_ok (runs b) = true.
Proof.
  unfold well_formed_string_list; intro H.
  andb_split H H Ht.
  andb_split H Hf Hr.
  split; [|exact Hr].
  pose proof (runs_tile b) as Htile.
  destruct (trailing b); [now rewrite app_nil_r in Htile | discriminate].
Qed.

Lemma prop_code_inj (t t' : prop_type) : prop_code t = prop_code t' -> t = t'.
Proof. destruct t, t'; cbn; intro H; try reflexivity; discriminate. Qed.

Lemma classifies_as_rule (b : list byte) (t : prop_type) :
  blen b <= C.INT_MAX ->
  classifies_as b (prop_code t) <-> classify_rule b = t.
Proof.
  intro Hb; unfold classifies_as.
  rewrite dtfs_get_prop_type_spec by assumption; split.
  - intros (w & H); injection H as H _; symmetry; now apply prop_code_inj.
  - intros <-; now exists None.
Qed.

(** C1, amended to lengths that fit the [int] parameter of
    [is_printable_string]: for every buffer [b] of length l <= INT_MAX,
    [dtfs_get_prop_type] returns the tag of the first matching rule:
    Simple if l = 0; else Strings if [b] is a well-formed string list;
    else Words if l mod 4 = 0; else Bytes ([classify_rule]).  In
    particular a buffer whose length is a multiple of 4 and that passes
    the string test is classified Strings, not Words. *)
Theorem classification_rule_order (b : list byte) (count : bool) :
  blen b <= C.INT_MAX ->
  (exists written,
      dtfs_get_prop_type b (blen b) count
      = Ret (prop_code (classify_rule b), written)) /\
  (blen b mod 4 = 0 -> well_formed_string_list b = true ->
   exists written,
     dtfs_get_prop_type b (blen b) count = Ret (DTFS_PROP_STRINGS, written)).
Proof.
  intro Hb; rewrite dtfs_get_prop_type_spec by assumption.
  split; [eauto|].
  intros Hm Hwf.
  assert (Hc : classify_rule b = Strings).
  { apply classify_rule_strings; split; [|exact Hwf].
    intro H0; apply blen_zero in H0; subst b; discriminate. }
  rewrite Hc; eauto.
Qed.

Lemma classification_rule_order_witness :
  blen buf_a_b <= C.INT_MAX /\ blen buf_a_b mod 4 = 0 /\
  well_formed_string_list buf_a_b = true /\
  exists written,
    dtfs_get_prop_type buf_a_b (blen buf_a_b) true = Ret (DTFS_PROP_STRINGS, written).
Proof.
  assert (Hb : blen buf_a_b <= C.INT_MAX) by (vm_compute; discriminate).
  repeat split; [exact Hb|].
  apply (proj2 (classification_rule_order buf_a_b true Hb)); reflexivity.
Defined.

(** ** Buffers longer than INT_MAX *)

Lemma blen_repeat (c : byte) (n : nat) : blen (repeat c n) = Z.of_nat n.
Proof. unfold blen; now rewrite repeat_length. Qed.

Lemma forallb_repeat (f : byte -> bool) (c : byte) (n : nat) :
  f c = true -> forallb f (repeat c n) = true.
Proof. intro H; induction n as [|n IH]; [reflexivity | cbn; now rewrite H]. Qed.

Lemma is_empty_repeat (c : byte) (n : nat) :
  (0 < n)%nat -> is_empty (repeat c n) = false.
Proof. destruct n; [lia | reflexivity]. Qed.

Lemma final_byte_nul_no_nul (l : list byte) :
  no_nul l = true -> final_byte_nul l = false.
Proof.
  intro H; destruct (final_byte_nul l) eqn:E; [|reflexivity].
  destruct (final_byte_nul_inv _ E) as (l' & ->).
  unfold no_nul in H; rewrite forallb_app in H; cbn in H.
  now rewrite andb_false_r in H.
Qed.

Lemma cstring_from_no_nul (l : list byte) :
  no_nul l = true -> cstring_from l = Fault.
Proof.
  induction l as [|c l IH]; [reflexivity|].
  cbn; intro H; andb_split H Hc Hl.
  apply negb_true_iff in Hc; now rewrite Hc, (IH Hl).
Qed.

(* at length 2^32 the int length seen by is_printable_string is 0 *)
Lemma dtfs_get_prop_type_4G (data : list byte) :
  dtfs_get_prop_type data 4294967296 false = Ret (DTFS_PROP_WORDS, None).
Proof. reflexivity. Qed.

(* at length 2^32 + 1 it is 1, and the count stored is the length modulo 2^32 *)
Lemma dtfs_get_prop_type_4G1 (tail : list byte) :
  dtfs_get_prop_type (x01 :: tail) 4294967297 true = Ret (DTFS_PROP_BYTES, Some 1).
Proof. reflexivity. Qed.

(* at length 2^32 + 2 only the first two bytes are inspected *)
Lemma dtfs_get_prop_type_4G2 (tail : list byte) :
  dtfs_get_prop_type ("a"%byte :: x00 :: tail) 4294967298 false
  = Ret (DTFS_PROP_STRINGS, None).
Proof. reflexivity. Qed.

Lemma dtfs_string_get_4G2 (tail : list byte) :
  dtfs_string_get ("a"%byte :: x00 :: tail) 4294967298 1 true = Ret (0, Some 2).
Proof.
  unfold dtfs_string_get; cbn [negb].
  rewrite dtfs_get_prop_type_4G2; cbn [bind fst].
  change (negb (DTFS_PROP_STRINGS =? DTFS_PROP_STRINGS)) with false; cbv iota.
  destruct (Z.to_nat 4294967298) as [|fuel] eqn:Ef; [lia|].
  reflexivity.
Qed.

(* at length INT_MAX + 1 the int length is negative and s[len - 1] lies
   before the buffer *)
Lemma dtfs_get_prop_type_2G (data : list byte) (count : bool) :
  dtfs_get_prop_type data 2147483648 count = Fault.
Proof. reflexivity. Qed.

Lemma dtfs_string_get_2G (data : list byte) (n : Z) :
  dtfs_string_get data 2147483648 n true = Fault.
Proof. reflexivity. Qed.

Lemma blen_huge_string : blen huge_string = 4294967296.
Proof.
  unfold huge_string.
  rewrite blen_app, blen_repeat, Z2Nat.id by lia; reflexivity.
Qed.

Lemma blen_huge_bytes : blen huge_bytes = 4294967297.
Proof.
  unfold huge_bytes.
  rewrite blen_cons, blen_repeat, Z2Nat.id by lia; reflexivity.
Qed.

Lemma blen_huge_unterminated : blen huge_unterminated = 4294967298.
Proof.
  unfold huge_unterminated.
  rewrite !blen_cons, blen_repeat, Z2Nat.id by lia; reflexivity.
Qed.

Lemma blen_huge_zeros : blen huge_zeros = 2147483648.
Proof.
  unfold huge_zeros.
  rewrite blen_repeat, Z2Nat.id by lia; reflexivity.
Qed.

Lemma huge_string_well_formed : well_formed_string_list huge_string = true.
Proof.
  unfold well_formed_string_list, huge_string.
  assert (HN : (0 < Z.to_nat 4294967295)%nat) by lia.
  generalize dependent (Z.to_nat 4294967295); intros n Hn.
  assert (Hnn : no_nul (repeat "a"%byte n) = true)
    by (apply forallb_repeat; reflexivity).
  rewrite final_byte_nul_snoc, runs_run, trailing_run by assumption.
  change (runs []) with (@nil (list byte)); change (trailing []) with (@nil byte).
  cbn [forallb is_empty]; unfold run_ok.
  rewrite is_empty_repeat by assumption.
  rewrite forallb_repeat by reflexivity.
  reflexivity.
Qed.

(** C1 as stated fails beyond INT_MAX.  [huge_string] has 2^32 bytes (a
    multiple of 4) and is a well-formed string list, so the rule order
    gives Strings; the code converts the length to the [int] 0, the
    string test answers no, and the buffer is classified Words.  Already
    at INT_MAX + 1 bytes ([huge_zeros]) the [int] length is negative and
    the call reads outside the buffer instead of returning a tag. *)
Lemma classification_rule_order_huge :
  (blen huge_string mod 4 = 0 /\
   well_formed_string_list huge_string = true /\
   classify_rule huge_string = Strings /\
   dtfs_get_prop_type huge_string (blen huge_string) false
   = Ret (DTFS_PROP_WORDS, None)) /\
  (blen huge_zeros = C.INT_MAX + 1 /\
   dtfs_get_prop_type huge_zeros (blen huge_zeros) false = Fault).
Proof.
  pose proof blen_huge_string as Hl.
  pose proof blen_huge_zeros as Hz.
  pose proof huge_string_well_formed as Hwf.
  split; [split; [|split; [|split]] | split].
  - rewrite Hl; reflexivity.
  - exact Hwf.
  - apply classify_rule_strings; split; [rewrite Hl; discriminate | exact Hwf].
  - rewrite Hl; apply dtfs_get_prop_type_4G.
  - exact Hz.
  - rewrite Hz; apply dtfs_get_prop_type_2G.
Qed.

(** C3, amended to lengths that fit an [int]: for every buffer [b] of
    length l <= INT_MAX and a non-null count pointer, [dtfs_get_prop_type]
    returns the tag of [classify_rule] and writes: nothing for Simple
    (l = 0); for Strings the number of NUL-terminated runs, which with
    their NULs tile the buffer exactly; for Words l / 4; for Bytes l. *)
Theorem count_written (b : list byte) :
  blen b <= C.INT_MAX ->
  exists written,
    dtfs_get_prop_type b (blen b) true
    = Ret (prop_code (classify_rule b), written) /\
    match classify_rule b with
    | Simple => blen b = 0 /\ written = None
    | Strings =>
        written = Some (Z.of_nat (List.length (runs b))) /\
        List.concat (map (fun r => r ++ [x00]) (runs b)) = b
    | Words => written = Some (blen b / 4)
    | Bytes => written = Some (blen b)
    end.
Proof.
  intro Hb; exists (count_rule b); split.
  - now apply dtfs_get_prop_type_spec.
  - unfold count_rule; destruct (classify_rule b) eqn:Ec; auto.
    + unfold classify_rule in Ec.
      destruct (blen b =? 0) eqn:E0; [apply Z.eqb_eq in E0; auto|].
      destruct (well_formed_string_list b); [discriminate|].
      destruct (blen b mod 4 =? 0); discriminate.
    + split; [reflexivity|].
      apply classify_rule_strings in Ec; destruct Ec as [_ Hwf].
      now apply well_formed_tiles.
Qed.

Lemma count_written_witness :
  blen buf_a_b <= C.INT_MAX /\
  dtfs_get_prop_type buf_a_b (blen buf_a_b) true = Ret (DTFS_PROP_STRINGS, Some 2) /\
  dtfs_get_prop_type buf_w12 (blen buf_w12) true = Ret (DTFS_PROP_WORDS, Some 2) /\
  dtfs_get_prop_type [x01; x02; x03] 3 true = Ret (DTFS_PROP_BYTES, Some 3) /\
  dtfs_get_prop_type [] 0 true = Ret (DTFS_PROP_SIMPLE, None).
Proof.
  assert (Ha : blen buf_a_b <= C.INT_MAX) by (vm_compute; discriminate).
  assert (Hw : blen buf_w12 <= C.INT_MAX) by (vm_compute; discriminate).
  assert (H3 : blen [x01; x02; x03] <= C.INT_MAX) by (vm_compute; discriminate).
  assert (H0 : blen [] <= C.INT_MAX) by (vm_compute; discriminate).
  split; [exact Ha|].
  destruct (count_written buf_a_b Ha) as (wa & Ea & Ca).
  destruct (count_written buf_w12 Hw) as (ww & Ew & Cw).
  destruct (count_written [x01; x02; x03] H3) as (w3 & E3 & C3).
  destruct (count_written [] H0) as (w0 & E0 & C0).
  change (classify_rule buf_a_b) with Strings in *.
  change (classify_rule buf_w12) with Words in *.
  change (classify_rule [x01; x02; x03]) with Bytes in *.
  change (classify_rule []) with Simple in *.
  cbv beta iota in Ca, Cw, C3, C0.
  destruct Ca as [-> _]; destruct C0 as [_ ->]; subst ww w3.
  split; [exact Ea | split; [exact Ew | split; [exact E3 | exact E0]]].
Defined.

(** C3 as stated fails beyond INT_MAX.  [huge_bytes] has 2^32 + 1 bytes;
    the code returns the tag Bytes and writes the count 1 (the length
    reduced modulo 2^32 by the [unsigned] store), not the length.
    Already at INT_MAX + 1 bytes ([huge_zeros]) the call reads outside
    the buffer and writes no count at all. *)
Lemma count_written_huge :
  (blen huge_bytes = 4294967297 /\
   dtfs_get_prop_type huge_bytes (blen huge_bytes) true
   = Ret (DTFS_PROP_BYTES, Some 1) /\
   Some 1 <> Some (blen huge_bytes)) /\
  (blen huge_zeros = C.INT_MAX + 1 /\
   dtfs_get_prop_type huge_zeros (blen huge_zeros) true = Fault).
Proof.
  pose proof blen_huge_bytes as Hl.
  pose proof blen_huge_zeros as Hz.
  split; [split; [exact Hl | split] | split].
  - rewrite Hl; unfold huge_bytes; apply dtfs_get_prop_type_4G1.
  - rewrite Hl; discriminate.
  - exact Hz.
  - rewrite Hz; apply dtfs_get_prop_type_2G.
Qed.

Lemma dtfs_get_prop_type_codes (data : list byte) (len : Z) (count : bool)
      (code : Z) (written : option Z) :
  dtfs_get_prop_type data len count = Ret (code, written) ->
  code = DTFS_PROP_SIMPLE \/ code = DTFS_PROP_STRINGS \/
  code = DTFS_PROP_WORDS \/ code = DTFS_PROP_BYTES.
Proof.
  unfold dtfs_get_prop_type.
  destruct (len =? 0); [intro H; injection H as <- _; auto|].
  destruct (is_printable_string data (C.to_int len)) as [[|]| |]; cbn [bind];
    try discriminate.
  - destruct count.
    + destruct (count_strings _ _ _ _ _); cbn [bind]; try discriminate.
      intro H; injection H as <- _; auto.
    + intro H; injection H as <- _; auto.
  - destruct (len mod 4 =? 0); intro H; injection H as <- _; auto.
Qed.

(** C9, amended to lengths that fit an [int]: for every buffer [b] of
    length l <= INT_MAX, whatever its bytes and whether or not a count is
    asked for, [dtfs_get_prop_type] returns, and the code it returns is
    one of the four tags, never the error value -1 of its header. *)
Theorem classification_total (b : list byte) (count : bool) :
  blen b <= C.INT_MAX ->
  exists code written,
    dtfs_get_prop_type b (blen b) count = Ret (code, written) /\
    (code = DTFS_PROP_SIMPLE \/ code = DTFS_PROP_STRINGS \/
     code = DTFS_PROP_WORDS \/ code = DTFS_PROP_BYTES) /\
    code <> -1.
Proof.
  intro Hb.
  pose proof (dtfs_get_prop_type_spec b count Hb) as Hw.
  exists (prop_code (classify_rule b)), (if count then count_rule b else None).
  split; [exact Hw|].
  split; [now apply (dtfs_get_prop_type_codes b (blen b) count _ _ Hw)|].
  destruct (classify_rule b); discriminate.
Qed.

Lemma classification_total_witness :
  blen [x00] <= C.INT_MAX /\
  exists code written,
    dtfs_get_prop_type [x00] (blen [x00]) true = Ret (code, written) /\
    (code = DTFS_PROP_SIMPLE \/ code = DTFS_PROP_STRINGS \/
     code = DTFS_PROP_WORDS \/ code = DTFS_PROP_BYTES) /\
    code <> -1.
Proof.
  assert (Hb : blen [x00] <= C.INT_MAX) by (vm_compute; discriminate).
  split; [exact Hb | exact (classification_total [x00] true Hb)].
Defined.

(** C9 as stated fails beyond INT_MAX: [huge_zeros] has INT_MAX + 1
    bytes; the length becomes a negative [int], [s[len - 1]] is read
    before the start of the buffer and no tag is returned. *)
Lemma classification_total_huge :
  blen huge_zeros = C.INT_MAX + 1 /\
  forall count code written,
    dtfs_get_prop_type huge_zeros (blen huge_zeros) count <> Ret (code, written).
Proof.
  pose proof blen_huge_zeros as Hl; split; [exact Hl|].
  intros count code written.
  rewrite Hl, dtfs_get_prop_type_2G; discriminate.
Qed.

(** C4, amended to lengths that fit an [int]: for every buffer [b] of
    length l <= INT_MAX and every index n, [dtfs_string_get] with a
    non-null output pointer returns -1 exactly when [b] does not classify
    as Strings or n is not less than the number of runs; otherwise it
    returns 0 and stores the pointer to the first byte of the n-th
    NUL-terminated run, so that the string seen through it is that run.
    On the buffer made of "a", NUL, "b", NUL: index 0 gives "a", index 1
    gives "b", index 2 fails. *)
Theorem string_get_nth_run (b : list byte) (n : Z) :
  blen b <= C.INT_MAX -> 0 <= n < 4294967296 ->
  (dtfs_string_get b (blen b) n true = Ret (-1, None) <->
   ~ classifies_as b DTFS_PROP_STRINGS \/ ~ n < Z.of_nat (List.length (runs b))) /\
  (classifies_as b DTFS_PROP_STRINGS -> n < Z.of_nat (List.length (runs b)) ->
   exists off,
     dtfs_string_get b (blen b) n true = Ret (0, Some off) /\
     off = run_offset (runs b) (Z.to_nat n) /\
     cstring_at b off = Ret (nth (Z.to_nat n) (runs b) [])) /\
  (exists o0 o1,
      dtfs_string_get buf_a_b 4 0 true = Ret (0, Some o0) /\
      cstring_at buf_a_b o0 = Ret ["a"%byte] /\
      dtfs_string_get buf_a_b 4 1 true = Ret (0, Some o1) /\
      cstring_at buf_a_b o1 = Ret ["b"%byte] /\
      dtfs_string_get buf_a_b 4 2 true = Ret (-1, None)).
Proof.
  intros Hb Hn.
  pose proof (dtfs_string_get_spec b n Hb Hn) as Hs.
  pose proof (classifies_as_rule b Strings Hb) as Hcl; cbn [prop_code] in Hcl.
  split; [|split].
  - rewrite Hs, Hcl; destruct (classify_rule b); split; intro H;
      try reflexivity; try (left; discriminate).
    + destruct (n <? Z.of_nat (List.length (runs b))) eqn:E; [discriminate|].
      right; apply Z.ltb_ge in E; lia.
    + destruct H as [H | H]; [now elim H|].
      destruct (n <? Z.of_nat (List.length (runs b))) eqn:E; [|reflexivity].
      apply Z.ltb_lt in E; contradiction.
  - intros Hc Hlt; apply Hcl in Hc; rewrite Hs, Hc.
    apply Z.ltb_lt in Hlt; rewrite Hlt.
    exists (run_offset (runs b) (Z.to_nat n)); repeat split.
    apply Z.ltb_lt in Hlt.
    pose proof (cstring_at_run_offset (Z.to_nat n) b [] b eq_refl) as Hr.
    rewrite blen_nil, Z.add_0_l in Hr; apply Hr; lia.
  - exists 0, 2; repeat split.
Qed.

Lemma string_get_nth_run_witness :
  blen buf_a_b <= C.INT_MAX /\ 0 <= 1 < 4294967296 /\
  classifies_as buf_a_b DTFS_PROP_STRINGS /\
  1 < Z.of_nat (List.length (runs buf_a_b)) /\
  exists off,
    dtfs_string_get buf_a_b (blen buf_a_b) 1 true = Ret (0, Some off) /\
    off = run_offset (runs buf_a_b) (Z.to_nat 1) /\
    cstring_at buf_a_b off = Ret (nth (Z.to_nat 1) (runs buf_a_b) []).
Proof.
  assert (Hb : blen buf_a_b <= C.INT_MAX) by (vm_compute; discriminate).
  assert (Hn : 0 <= 1 < 4294967296) by lia.
  assert (Hc : classifies_as buf_a_b DTFS_PROP_STRINGS) by (now exists None).
  assert (Hl : 1 < Z.of_nat (List.length (runs buf_a_b))) by reflexivity.
  repeat (split; [assumption|]).
  exact (proj1 (proj2 (string_get_nth_run buf_a_b 1 Hb Hn)) Hc Hl).
Defined.

(** C4 as stated fails beyond INT_MAX: [huge_unterminated] has 2^32 + 2
    bytes and a single NUL-terminated run; it is not a well-formed string
    list, yet the code, looking at the first two bytes only, classifies
    it Strings, and index 1, which is not less than the run count,
    succeeds with a pointer behind which no NUL follows.  Already at
    INT_MAX + 1 bytes ([huge_zeros]) the call reads outside the buffer
    instead of returning -1. *)
Lemma string_get_nth_run_huge :
  (blen huge_zeros = C.INT_MAX + 1 /\
   dtfs_string_get huge_zeros (blen huge_zeros) 0 true = Fault) /\
  List.length (runs huge_unterminated) = 1%nat /\
  classify_rule huge_unterminated <> Strings /\
  classifies_as huge_unterminated DTFS_PROP_STRINGS /\
  dtfs_string_get huge_unterminated (blen huge_unterminated) 1 true
  = Ret (0, Some 2) /\
  cstring_at huge_unterminated 2 = Fault.
Proof.
  split.
  { pose proof blen_huge_zeros as Hz; split; [exact Hz|].
    rewrite Hz; apply dtfs_string_get_2G. }
  pose proof blen_huge_unterminated as Hl.
  unfold classifies_as; rewrite Hl; clear Hl; unfold huge_unterminated.
  assert (HN : (0 < Z.to_nat 4294967296)%nat) by lia.
  generalize dependent (Z.to_nat 4294967296); intros n Hn.
  assert (Hnn : no_nul (repeat "a"%byte n) = true)
    by (apply forallb_repeat; reflexivity).
  assert (Hruns : runs ("a"%byte :: x00 :: repeat "a"%byte n) = [["a"%byte]]).
  { change ("a"%byte :: x00 :: repeat "a"%byte n)
      with (["a"%byte] ++ x00 :: repeat "a"%byte n).
    rewrite runs_run by reflexivity.
    unfold runs; now rewrite nul_split_no_nul. }
  split; [|split; [|split; [|split]]].
  - now rewrite Hruns.
  - intro Hc; apply classify_rule_strings in Hc; destruct Hc as [_ Hwf].
    unfold well_formed_string_list in Hwf.
    apply andb_true_iff in Hwf; destruct Hwf as [Hwf _].
    apply andb_true_iff in Hwf; destruct Hwf as [Hfin _].
    change ("a"%byte :: x00 :: repeat "a"%byte n)
      with (["a"%byte; x00] ++ repeat "a"%byte n) in Hfin.
    rewrite final_byte_nul_app in Hfin by (destruct n; [lia | discriminate]).
    now rewrite final_byte_nul_no_nul in Hfin.
  - exists None; apply dtfs_get_prop_type_4G2.
  - apply dtfs_string_get_4G2.
  - change (cstring_at ("a"%byte :: x00 :: repeat "a"%byte n) 2)
      with (cstring_from (repeat "a"%byte n)).
    now apply cstring_from_no_nul.
Qed.

(** C2, evaluated where the code departs from it: the four-byte buffer
    00 00 00 01 classifies as Words with one word; for n = 1 the bound
    (n+1)*4 > l holds, but the guard of the code is n*4 > l, the call
    does not return -1 and the word is read past the end of the buffer. *)
Theorem word_get_one_past_end :
  dtfs_get_prop_type buf_w1 (blen buf_w1) true = Ret (DTFS_PROP_WORDS, Some 1) /\
  (1 + 1) * 4 > blen buf_w1 /\
  dtfs_word_get buf_w1 (blen buf_w1) 1 true = Fault /\
  dtfs_word_get buf_w1 (blen buf_w1) 1 true <> Ret (-1, None).
Proof. repeat split; discriminate. Qed.

(** * Further properties of the library and of its callers *)

(** ** The word decoder *)

Lemma four_bytes_at (b : list byte) (k : nat) :
  (k + 4 <= List.length b)%nat ->
  exists pre b0 b1 b2 b3 rest,
    b = pre ++ b0 :: b1 :: b2 :: b3 :: rest /\ List.length pre = k.
Proof.
  intro H.
  pose proof (firstn_skipn k b) as Hsplit.
  pose proof (length_skipn k b) as Hlen.
  destruct (skipn k b) as [|b0 [|b1 [|b2 [|b3 rest]]]]; cbn in Hlen; try lia.
  exists (firstn k b), b0, b1, b2, b3, rest; split; [now symmetry|].
  rewrite length_firstn; lia.
Qed.

Lemma nth_error_after (pre rest : list byte) (c : byte) (mid : list byte) :
  nth_error (pre ++ mid ++ c :: rest) (List.length pre + List.length mid) = Some c.
Proof.
  rewrite nth_error_app2 by lia.
  replace (List.length pre + List.length mid - List.length pre)%nat
    with (List.length mid) by lia.
  rewrite nth_error_app2 by lia; now rewrite Nat.sub_diag.
Qed.

Lemma be32_range (b0 b1 b2 b3 : byte) : 0 <= be32 b0 b1 b2 b3 < 4294967296.
Proof.
  pose proof (byte_val_range b0); pose proof (byte_val_range b1).
  pose proof (byte_val_range b2); pose proof (byte_val_range b3).
  unfold be32; lia.
Qed.

(** X1: in a buffer of at most INT_MAX bytes that classifies as Words,
    every index below the count l / 4 decodes: [dtfs_word_get] returns 0
    and stores the number whose big-endian digits are the four bytes at
    offsets 4n .. 4n+3, a value below 2^32. *)
Theorem word_get_decodes (b : list byte) (n : Z) :
  blen b <= C.INT_MAX -> classifies_as b DTFS_PROP_WORDS ->
  0 <= n < blen b / 4 ->
  exists b0 b1 b2 b3,
    nth_error b (Z.to_nat (4 * n)) = Some b0 /\
    nth_error b (Z.to_nat (4 * n + 1)) = Some b1 /\
    nth_error b (Z.to_nat (4 * n + 2)) = Some b2 /\
    nth_error b (Z.to_nat (4 * n + 3)) = Some b3 /\
    dtfs_word_get b (blen b) n true = Ret (0, Some (be32 b0 b1 b2 b3)) /\
    0 <= be32 b0 b1 b2 b3 < 4294967296.
Proof.
  intros Hb Hc Hn.
  apply (classifies_as_rule b Words Hb) in Hc.
  pose proof (blen_nonneg b) as Hnn.
  assert (Hin : 4 * n + 4 <= blen b).
  { pose proof (Z.mul_div_le (blen b) 4 ltac:(lia)); lia. }
  destruct (four_bytes_at b (Z.to_nat (4 * n)))
    as (pre & b0 & b1 & b2 & b3 & rest & Hd & Hp); [unfold blen in Hin; lia|].
  exists b0, b1, b2, b3.
  assert (H0 : nth_error b (Z.to_nat (4 * n)) = Some b0).
  { rewrite Hd at 1; rewrite <- Hp.
    pose proof (nth_error_after pre (b1 :: b2 :: b3 :: rest) b0 []) as H.
    cbn [app List.length] in H; now rewrite Nat.add_0_r in H. }
  assert (H1 : nth_error b (Z.to_nat (4 * n + 1)) = Some b1).
  { rewrite Hd at 1.
    replace (Z.to_nat (4 * n + 1)) with (List.length pre + 1)%nat by lia.
    exact (nth_error_after pre (b2 :: b3 :: rest) b1 [b0]). }
  assert (H2 : nth_error b (Z.to_nat (4 * n + 2)) = Some b2).
  { rewrite Hd at 1.
    replace (Z.to_nat (4 * n + 2)) with (List.length pre + 2)%nat by lia.
    exact (nth_error_after pre (b3 :: rest) b2 [b0; b1]). }
  assert (H3 : nth_error b (Z.to_nat (4 * n + 3)) = Some b3).
  { rewrite Hd at 1.
    replace (Z.to_nat (4 * n + 3)) with (List.length pre + 3)%nat by lia.
    exact (nth_error_after pre rest b3 [b0; b1; b2]). }
  repeat (split; [assumption|]).
  split; [|apply be32_range].
  apply (dtfs_word_get_in_range b pre rest); auto; try lia.
  unfold blen; lia.
Qed.

Lemma word_get_decodes_witness :
  blen buf_w12 <= C.INT_MAX /\ classifies_as buf_w12 DTFS_PROP_WORDS /\
  0 <= 1 < blen buf_w12 / 4 /\
  dtfs_word_get buf_w12 (blen buf_w12) 1 true = Ret (0, Some 2).
Proof.
  assert (Hb : blen buf_w12 <= C.INT_MAX) by (vm_compute; discriminate).
  assert (Hc : classifies_as buf_w12 DTFS_PROP_WORDS) by (now exists None).
  assert (Hn : 0 <= 1 < blen buf_w12 / 4) by (change (blen buf_w12 / 4) with 2; lia).
  repeat (split; [assumption|]).
  destruct (word_get_decodes buf_w12 1 Hb Hc Hn)
    as (b0 & b1 & b2 & b3 & H0 & H1 & H2 & H3 & Hw & _).
  injection H0 as <-; injection H1 as <-; injection H2 as <-; injection H3 as <-.
  exact Hw.
Defined.

(** X2: for a buffer of at most INT_MAX bytes and a non-null output
    pointer, [dtfs_word_get] returns -1 exactly when the buffer does not
    classify as Words or n * 4 > l (the guard the code tests). *)
Theorem word_get_fails_iff (b : list byte) (n : Z) :
  blen b <= C.INT_MAX -> 0 <= n < 4294967296 ->
  dtfs_word_get b (blen b) n true = Ret (-1, None) <->
  ~ classifies_as b DTFS_PROP_WORDS \/ n * 4 > blen b.
Proof.
  intros Hb Hn.
  rewrite (dtfs_word_get_guards b n Hb Hn).
  pose proof (classifies_as_rule b Words Hb) as Hcl; cbn [prop_code] in Hcl.
  rewrite Hcl.
  destruct (classify_rule b); split; intro H;
    try reflexivity; try (left; discriminate).
  - destruct (n * 4 >? blen b) eqn:E.
    + right; rewrite Z.gtb_ltb in E; apply Z.ltb_lt in E; lia.
    + destruct (load_be32 b (4 * n)); discriminate.
  - destruct H as [H | H]; [now elim H|].
    assert (E : (n * 4 >? blen b) = true)
      by (rewrite Z.gtb_ltb; apply Z.ltb_lt; lia).
    now rewrite E.
Qed.

Lemma word_get_fails_iff_witness :
  blen buf_w12 <= C.INT_MAX /\ 0 <= 3 < 4294967296 /\ 3 * 4 > blen buf_w12 /\
  dtfs_word_get buf_w12 (blen buf_w12) 3 true = Ret (-1, None).
Proof.
  assert (Hb : blen buf_w12 <= C.INT_MAX) by (vm_compute; discriminate).
  assert (Hn : 0 <= 3 < 4294967296) by lia.
  assert (Hg : 3 * 4 > blen buf_w12) by reflexivity.
  repeat (split; [assumption|]).
  apply (proj2 (word_get_fails_iff buf_w12 3 Hb Hn)); now right.
Defined.

(** X3: the two decoders exclude each other, whatever the buffer and the
    length: when [dtfs_string_get] succeeds at some index,
    [dtfs_word_get] returns -1 at every index, and the other way round. *)
Theorem decoders_exclusive (data : list byte) (len n m : Z) :
  (forall off, dtfs_string_get data len n true = Ret (0, Some off) ->
               dtfs_word_get data len m true = Ret (-1, None)) /\
  (forall w, dtfs_word_get data len m true = Ret (0, Some w) ->
             dtfs_string_get data len n true = Ret (-1, None)).
Proof.
  unfold dtfs_string_get, dtfs_word_get; cbn [negb].
  destruct (dtfs_get_prop_type data len false) as [[t w0]| |]; cbn [bind fst];
    [|split; intros; discriminate | split; intros; discriminate].
  destruct (t =? DTFS_PROP_STRINGS) eqn:Es; destruct (t =? DTFS_PROP_WORDS) eqn:Ew;
    cbn [negb]; split; intros x H; try reflexivity; try discriminate.
  - apply Z.eqb_eq in Es; apply Z.eqb_eq in Ew; subst t; discriminate.
  - apply Z.eqb_eq in Es; apply Z.eqb_eq in Ew; subst t; discriminate.
Qed.

Lemma decoders_exclusive_witness :
  dtfs_string_get buf_a_b 4 1 true = Ret (0, Some 2) /\
  dtfs_word_get buf_a_b 4 0 true = Ret (-1, None).
Proof.
  assert (Hs : dtfs_string_get buf_a_b 4 1 true = Ret (0, Some 2)) by reflexivity.
  split; [exact Hs|].
  exact (proj1 (decoders_exclusive buf_a_b 4 1 0) 2 Hs).
Defined.

(** ** The string decoder *)

Lemma run_ok_no_nul (s : list byte) : run_ok s = true -> no_nul s = true.
Proof.
  unfold run_ok, no_nul; intro H; apply andb_true_iff in H; destruct H as [_ H].
  induction s as [|c s IH]; [reflexivity|].
  cbn in *; andb_split H Hc Hs.
  rewrite (printable_not_nul c Hc); cbn; now apply IH.
Qed.

Lemma encode_strings_cons (s : list byte) (ss : list (list byte)) :
  encode_strings (s :: ss) = s ++ x00 :: encode_strings ss.
Proof. unfold encode_strings; cbn; now rewrite <- app_assoc. Qed.

Lemma nul_split_encode (ss : list (list byte)) :
  Forall (fun s => run_ok s = true) ss ->
  nul_split (encode_strings ss) = (ss, []).
Proof.
  induction 1 as [|s ss Hs _ IH]; [reflexivity|].
  rewrite encode_strings_cons, nul_split_run by now apply run_ok_no_nul.
  unfold runs, trailing; now rewrite IH.
Qed.

Lemma final_byte_nul_encode (ss : list (list byte)) :
  ss <> [] -> final_byte_nul (encode_strings ss) = true.
Proof.
  induction ss as [|s ss IH]; [contradiction|]; intros _.
  rewrite encode_strings_cons.
  destruct ss as [|s' ss].
  - change (s ++ x00 :: encode_strings []) with (s ++ [x00]).
    apply final_byte_nul_snoc.
  - change (s ++ x00 :: encode_strings (s' :: ss))
      with (s ++ [x00] ++ encode_strings (s' :: ss)).
    rewrite app_assoc, final_byte_nul_app; [apply IH; discriminate|].
    rewrite encode_strings_cons; now destruct s'.
Qed.

Lemma encode_strings_well_formed (ss : list (list byte)) :
  ss <> [] -> Forall (fun s => run_ok s = true) ss ->
  classify_rule (encode_strings ss) = Strings /\ runs (encode_strings ss) = ss.
Proof.
  intros Hne Hok.
  assert (Hruns : runs (encode_strings ss) = ss)
    by (unfold runs; now rewrite nul_split_encode).
  split; [|exact Hruns].
  apply classify_rule_strings; split.
  - destruct ss as [|s ss]; [contradiction|].
    rewrite encode_strings_cons, blen_app, blen_cons.
    pose proof (blen_nonneg s); pose proof (blen_nonneg (encode_strings ss)); lia.
  - unfold well_formed_string_list, trailing.
    rewrite Hruns, nul_split_encode, final_byte_nul_encode by assumption.
    cbn [snd is_empty]; rewrite andb_true_r; cbn [andb].
    now apply forallb_forall, Forall_forall.
Qed.

(** X4: encoding then decoding gives the strings back.  For a non-empty
    list of non-empty printable strings whose encoding (each string
    followed by a NUL) has at most INT_MAX bytes, [dtfs_get_prop_type]
    answers Strings with the number of strings as count, and
    [dtfs_string_get] at every index below that number returns a pointer
    behind which the string of that index is read. *)
Theorem strings_round_trip (ss : list (list byte)) :
  ss <> [] -> Forall (fun s => run_ok s = true) ss ->
  blen (encode_strings ss) <= C.INT_MAX ->
  dtfs_get_prop_type (encode_strings ss) (blen (encode_strings ss)) true
  = Ret (DTFS_PROP_STRINGS, Some (Z.of_nat (List.length ss))) /\
  forall n, 0 <= n < Z.of_nat (List.length ss) ->
    exists off,
      dtfs_string_get (encode_strings ss) (blen (encode_strings ss)) n true
      = Ret (0, Some off) /\
      cstring_at (encode_strings ss) off = Ret (nth (Z.to_nat n) ss []).
Proof.
  intros Hne Hok Hb.
  destruct (encode_strings_well_formed ss Hne Hok) as [Hc Hruns].
  split.
  - rewrite dtfs_get_prop_type_spec by assumption.
    unfold count_rule; now rewrite Hc, Hruns.
  - intros n Hn.
    pose proof (runs_length_le (encode_strings ss)) as Hle; rewrite Hruns in Hle.
    rewrite dtfs_string_get_spec, Hc, Hruns by (unfold blen, C.INT_MAX in *; lia).
    assert (Hlt : (n <? Z.of_nat (List.length ss)) = true) by (apply Z.ltb_lt; lia).
    rewrite Hlt; eexists; split; [reflexivity|].
    pose proof (cstring_at_run_offset (Z.to_nat n) (encode_strings ss) []
                  (encode_strings ss) eq_refl) as Hr.
    rewrite Hruns, blen_nil, Z.add_0_l in Hr; apply Hr; lia.
Qed.

Lemma strings_round_trip_witness :
  dtfs_get_prop_type (encode_strings [["a"%byte]; ["b"%byte]])
                     (blen (encode_strings [["a"%byte]; ["b"%byte]])) true
  = Ret (DTFS_PROP_STRINGS, Some 2) /\
  exists off,
    dtfs_string_get (encode_strings [["a"%byte]; ["b"%byte]])
                    (blen (encode_strings [["a"%byte]; ["b"%byte]])) 1 true
    = Ret (0, Some off) /\
    cstring_at (encode_strings [["a"%byte]; ["b"%byte]]) off = Ret ["b"%byte].
Proof.
  assert (Hne : [["a"%byte]; ["b"%byte]] <> []) by discriminate.
  assert (Hok : Forall (fun s => run_ok s = true) [["a"%byte]; ["b"%byte]])
    by (repeat constructor).
  assert (Hb : blen (encode_strings [["a"%byte]; ["b"%byte]]) <= C.INT_MAX)
    by (vm_compute; discriminate).
  destruct (strings_round_trip _ Hne Hok Hb) as [Ht Hg].
  split; [exact Ht|].
  apply (Hg 1); cbn; lia.
Defined.

Lemma run_ok_nth (rs : list (list byte)) (k : nat) :
  forallb run_ok rs = true -> (k < List.length rs)%nat ->
  run_ok (nth k rs []) = true.
Proof.
  intros H Hk; rewrite forallb_forall in H; apply H, nth_In, Hk.
Qed.

(** X5: a string handed out by [dtfs_string_get] (buffer of at most
    INT_MAX bytes) is never empty and holds printable characters only,
    so none of them is NUL. *)
Theorem string_get_printable (b : list byte) (n off : Z) (s : list byte) :
  blen b <= C.INT_MAX -> 0 <= n < 4294967296 ->
  dtfs_string_get b (blen b) n true = Ret (0, Some off) ->
  cstring_at b off = Ret s ->
  s <> [] /\ forallb isprint s = true /\ ~ In x00 s.
Proof.
  intros Hb Hn Hg Hs.
  rewrite dtfs_string_get_spec in Hg by assumption.
  destruct (classify_rule b) eqn:Hc; try discriminate.
  destruct (n <? Z.of_nat (List.length (runs b))) eqn:Hlt; [|discriminate].
  apply Z.ltb_lt in Hlt; injection Hg as <-.
  pose proof (cstring_at_run_offset (Z.to_nat n) b [] b eq_refl) as Hr.
  rewrite blen_nil, Z.add_0_l, Hs in Hr.
  injection Hr as ->; [|lia].
  apply classify_rule_strings in Hc; destruct Hc as [_ Hwf].
  destruct (well_formed_tiles b Hwf) as [_ Hok].
  pose proof (run_ok_nth (runs b) (Z.to_nat n) Hok ltac:(lia)) as Hrun.
  pose proof (run_ok_no_nul _ Hrun) as Hnn.
  unfold run_ok in Hrun; andb_split Hrun Hne Hpr.
  split; [|split].
  - intro E; rewrite E in Hne; discriminate.
  - apply forallb_forall; intros c Hin.
    rewrite forallb_forall in Hpr; specialize (Hpr c Hin).
    unfold printable_char in Hpr; now apply andb_true_iff in Hpr.
  - intro Hin; unfold no_nul in Hnn; rewrite forallb_forall in Hnn.
    specialize (Hnn x00 Hin); discriminate.
Qed.

Lemma string_get_printable_witness :
  blen buf_a_b <= C.INT_MAX /\ 0 <= 1 < 4294967296 /\
  dtfs_string_get buf_a_b (blen buf_a_b) 1 true = Ret (0, Some 2) /\
  cstring_at buf_a_b 2 = Ret ["b"%byte] /\
  ["b"%byte] <> [] /\ forallb isprint ["b"%byte] = true /\ ~ In x00 ["b"%byte].
Proof.
  assert (Hb : blen buf_a_b <= C.INT_MAX) by (vm_compute; discriminate).
  assert (Hn : 0 <= 1 < 4294967296) by lia.
  assert (Hg : dtfs_string_get buf_a_b (blen buf_a_b) 1 true = Ret (0, Some 2))
    by reflexivity.
  assert (Hs : cstring_at buf_a_b 2 = Ret ["b"%byte]) by reflexivity.
  repeat (split; [assumption|]).
  exact (string_get_printable buf_a_b 1 2 ["b"%byte] Hb Hn Hg Hs).
Defined.

Lemma adjacent_nuls_not_ok (b : list byte) :
  forall pre post, b = pre ++ x00 :: x00 :: post ->
  forallb run_ok (runs b) = false.
Proof.
  remember (List.length b) as k eqn:Hk.
  revert b Hk; induction k as [k IH] using lt_wf_ind; intros b Hk pre post ->.
  destruct (first_nul pre) as [Hnn | (r & rest & -> & Hr)].
  - rewrite runs_run by assumption.
    change (x00 :: post) with ([] ++ x00 :: post).
    rewrite runs_run by reflexivity.
    cbn [forallb]; unfold run_ok at 2; cbn [is_empty negb andb].
    apply andb_false_r.
  - rewrite <- app_assoc; cbn [app].
    rewrite runs_run by assumption; cbn [forallb].
    assert (Hlt : (List.length (rest ++ x00 :: x00 :: post) < k)%nat).
    { subst k; repeat (rewrite length_app || cbn [List.length]); lia. }
    rewrite (IH _ Hlt (rest ++ x00 :: x00 :: post) eq_refl rest post eq_refl).
    apply andb_false_r.
Qed.

(** X6: a buffer (of at most INT_MAX bytes) that holds an empty string,
    that is one that starts with a NUL or has two NULs in a row, is
    never classified Strings: the tag is Words when the length is a
    multiple of 4 and Bytes otherwise. *)
Theorem empty_string_not_strings (b pre post : list byte) (count : bool) :
  b = x00 :: post \/ b = pre ++ x00 :: x00 :: post ->
  blen b <= C.INT_MAX ->
  exists written,
    dtfs_get_prop_type b (blen b) count
    = Ret (if blen b mod 4 =? 0 then DTFS_PROP_WORDS else DTFS_PROP_BYTES,
           written).
Proof.
  intros Hshape Hb.
  rewrite dtfs_get_prop_type_spec by assumption.
  assert (Hnok : forallb run_ok (runs b) = false).
  { destruct Hshape as [-> | ->].
    - change (x00 :: post) with ([] ++ x00 :: post).
      now rewrite runs_run by reflexivity.
    - now apply (adjacent_nuls_not_ok _ pre post). }
  assert (Hnz : (blen b =? 0) = false).
  { apply Z.eqb_neq; destruct Hshape as [-> | ->]; blen_lia. }
  unfold classify_rule, well_formed_string_list.
  rewrite Hnz, Hnok, andb_false_r; cbn [andb].
  destruct (blen b mod 4 =? 0); eauto.
Qed.

Lemma empty_string_not_strings_witness :
  exists written,
    dtfs_get_prop_type ["a"%byte; x00; x00; x00] 4 true
    = Ret (DTFS_PROP_WORDS, written).
Proof.
  apply (empty_string_not_strings ["a"%byte; x00; x00; x00] ["a"%byte] [x00] true).
  - right; reflexivity.
  - vm_compute; discriminate.
Defined.

(** ** The path builder, beyond its failure cases *)

Lemma slen_append (s1 s2 : string) : slen (s1 ++ s2) = slen s1 + slen s2.
Proof.
  unfold slen; induction s1 as [|c s1 IH]; [reflexivity|].
  cbn [String.append String.length]; lia.
Qed.

Lemma prefix_append (b t : string) : String.prefix b (b ++ t) = true.
Proof.
  induction b as [|c b IH]; [now destruct t|].
  cbn [String.append String.prefix].
  destruct (ascii_dec c c) as [_ | Hne]; [exact IH | now elim Hne].
Qed.

Lemma prefix_refl (b : string) : String.prefix b b = true.
Proof.
  induction b as [|c b IH]; [reflexivity|].
  cbn [String.prefix].
  destruct (ascii_dec c c) as [_ | Hne]; [exact IH | now elim Hne].
Qed.

Lemma slen_sep (b p : string) :
  slen b + slen (String "/" p) + 1 = slen b + slen p + 2.
Proof. unfold slen; cbn [String.length]; lia. Qed.

(** X7: whenever [dtfs_concat_path] returns a string (either build), the
    size it asked the allocator for, and was granted, is exactly the
    length of that string plus one for the terminator; the result starts
    with the base and, when a path is given, ends with the path. *)
Theorem concat_path_allocation_fits (a : bool) (m : Z -> bool) (b : string)
        (path : option string) (s : string) :
  dtfs_concat_path a m (Some b) path = Ret (Some s) ->
  m (slen s + 1) = true /\
  String.prefix b s = true /\
  match path with
  | None => s = b
  | Some p => s = (b ++ p)%string \/ s = (b ++ "/" ++ p)%string
  end.
Proof.
  unfold dtfs_concat_path.
  destruct (slen b <? 1); [discriminate|].
  assert (Hpre : forall t, String.prefix b (b ++ t) = true)
    by (intro t; apply prefix_append).
  destruct path as [p|].
  - destruct a.
    + destruct (m _) eqn:Hm; [|discriminate].
      intro H; injection H as <-; split; [exact Hm|].
      destruct (is_slash (last_char b)); auto.
    + destruct (negb (is_slash (last_char b)) && negb (is_slash (first_char p)));
        destruct (m _) eqn:Hm; try discriminate;
        intro H; injection H as <-; (split; [|auto]).
      * rewrite slen_append, slen_sep; exact Hm.
      * now rewrite slen_append.
  - destruct (m _) eqn:Hm; [|discriminate].
    intro H; injection H as <-; split; [exact Hm|split; [|reflexivity]].
    apply prefix_refl.
Qed.

Lemma concat_path_allocation_fits_witness :
  (fun n => n =? 9) (slen "/dt/cpus" + 1) = true /\
  String.prefix "/dt" "/dt/cpus" = true.
Proof.
  destruct (concat_path_allocation_fits false (fun n => n =? 9) "/dt"
              (Some "cpus"%string) "/dt/cpus" eq_refl) as (Hm & Hp & _).
  split; assumption.
Defined.

(** X8: the two builds of [dtfs_concat_path] return the same thing
    unless the base does not end with '/' while the path starts with
    '/'; in that case, when the allocations succeed, the default build
    returns base followed by path and the [_DTFS_USE_ASPRINTF_] build
    puts a second separator between them. *)
Theorem concat_path_builds (m : Z -> bool) (b p : string) :
  (is_slash (last_char b) = true \/ is_slash (first_char p) = false ->
   dtfs_concat_path true m (Some b) (Some p)
   = dtfs_concat_path false m (Some b) (Some p)) /\
  (b <> ""%string -> is_slash (last_char b) = false ->
   is_slash (first_char p) = true -> (forall n, m n = true) ->
   dtfs_concat_path false m (Some b) (Some p) = Ret (Some (b ++ p)%string) /\
   dtfs_concat_path true m (Some b) (Some p) = Ret (Some (b ++ "/" ++ p)%string)).
Proof.
  unfold dtfs_concat_path; split.
  - intros Hs; destruct (slen b <? 1); [reflexivity|].
    destruct (is_slash (last_char b)) eqn:El; cbn [negb andb].
    + now rewrite slen_append.
    + destruct Hs as [Hs | Hs]; [discriminate|].
      rewrite Hs; cbn [negb].
      change ("/" ++ p)%string with (String "/" p).
      now rewrite slen_append, slen_sep.
  - intros Hb Hl Hf Hm.
    rewrite (slen_nonempty b Hb), Hl, Hf, !Hm; cbn [negb andb]; split; reflexivity.
Qed.

Lemma concat_path_builds_witness :
  dtfs_concat_path false (fun _ => true) (Some "/dt"%string) (Some "/cpus"%string)
  = Ret (Some "/dt/cpus"%string) /\
  dtfs_concat_path true (fun _ => true) (Some "/dt"%string) (Some "/cpus"%string)
  = Ret (Some "/dt//cpus"%string) /\
  dtfs_concat_path true (fun _ => true) (Some "/dt/"%string) (Some "cpus"%string)
  = dtfs_concat_path false (fun _ => true) (Some "/dt/"%string) (Some "cpus"%string).
Proof.
  destruct (concat_path_builds (fun _ => true) "/dt" "/cpus") as [_ Hd].
  destruct (concat_path_builds (fun _ => true) "/dt/" "cpus") as [Hs _].
  destruct Hd as [H1 H2]; try reflexivity; [discriminate|].
  split; [exact H1 | split; [exact H2 | apply Hs; now left]].
Defined.

(** ** The path classifier and the traversal engine, beyond their failures *)

(** X9: [dtfs_check_path] always returns, with one of three answers.  It
    answers [DTFS_PATH_NODE] exactly when the base is present, the join
    succeeds and stat reports a directory for the joined path, and
    [DTFS_PATH_PROPERTY] exactly when stat reports a regular file; in
    every other case (absent or empty base, failed join, failed stat,
    another kind of file) it answers -1.  It makes at most one stat call
    and no other store access. *)
Theorem check_path_answers (e : env) (base path : option string) :
  exists t ev,
    dtfs_check_path e base path = Ret (t, ev) /\
    (t = DTFS_PATH_NODE \/ t = DTFS_PATH_PROPERTY \/ t = -1) /\
    (forall kind code, (kind, code) = (S_IFDIR, DTFS_PATH_NODE) \/
                       (kind, code) = (S_IFREG, DTFS_PATH_PROPERTY) ->
       (t = code <->
        exists b str s,
          base = Some b /\
          dtfs_concat_path (env_asprintf e) (env_malloc e) (Some b) path
          = Ret (Some str) /\
          env_stat e str = Some s /\ st_mode s = kind)) /\
    (List.length (filter is_store_access ev) <= 1)%nat /\
    (forall x, In x (filter is_store_access ev) -> exists p, x = EvStat p).
Proof.
  unfold dtfs_check_path.
  destruct base as [b|].
  2:{ exists (-1), []; split; [reflexivity|]; split; [auto|].
      split; [|split; [cbn; lia | intros x []]].
      intros kind code [H | H]; injection H as -> ->; split;
        try discriminate; intros (b & str & s & Hb & _); discriminate. }
  destruct (dtfs_concat_path_some (env_asprintf e) (env_malloc e) b path) as [Hf Ho].
  destruct (dtfs_concat_path _ _ (Some b) path) as [[str|]| |] eqn:Ej;
    try contradiction; cbn [bind].
  2:{ eexists _, _; split; [reflexivity|]; split; [auto|].
      split; [|split; [cbn; lia | intros x []]].
      intros kind code [H | H]; injection H as -> ->; split;
        try discriminate; intros (b' & str & s & Hb & Hj & _);
        injection Hb as <-; rewrite Ej in Hj; discriminate. }
  destruct (env_stat e str) as [s|] eqn:Es.
  2:{ eexists _, _; split; [reflexivity|]; split; [auto|].
      split; [|split; [cbn; lia | intros x [<- | []]; eauto]].
      intros kind code [H | H]; injection H as -> ->; split;
        try discriminate; intros (b' & str' & s & Hb & Hj & Hs & _);
        injection Hb as <-; rewrite Ej in Hj; injection Hj as <-;
        rewrite Es in Hs; discriminate. }
  eexists _, _; split; [reflexivity|].
  split; [destruct (st_mode s); auto|].
  split; [|split; [cbn; lia | intros x [<- | []]; eauto]].
  intros kind code [H | H]; injection H as -> ->; split.
  - intro Ht; exists b, str, s; repeat split; auto.
    destruct (st_mode s); try reflexivity; discriminate.
  - intros (b' & str' & s' & Hb & Hj & Hs & Hm).
    injection Hb as <-; rewrite Ej in Hj; injection Hj as <-.
    rewrite Es in Hs; injection Hs as <-; now rewrite Hm.
  - intro Ht; exists b, str, s; repeat split; auto.
    destruct (st_mode s); try reflexivity; discriminate.
  - intros (b' & str' & s' & Hb & Hj & Hs & Hm).
    injection Hb as <-; rewrite Ej in Hj; injection Hj as <-.
    rewrite Es in Hs; injection Hs as <-; now rewrite Hm.
Qed.

Lemma check_path_answers_witness :
  dtfs_check_path sample_env (Some "/dt"%string) (Some "cpus"%string)
  = Ret (DTFS_PATH_NODE, [EvStat "/dt/cpus"]) /\
  exists b str s,
    Some "/dt"%string = Some b /\
    dtfs_concat_path (env_asprintf sample_env) (env_malloc sample_env) (Some b)
                     (Some "cpus"%string) = Ret (Some str) /\
    env_stat sample_env str = Some s /\ st_mode s = S_IFDIR.
Proof.
  split; [reflexivity|].
  destruct (check_path_answers sample_env (Some "/dt"%string) (Some "cpus"%string))
    as (t & ev & Hc & _ & Hk & _).
  injection Hc as <- <-.
  apply (Hk S_IFDIR DTFS_PATH_NODE); [now left | reflexivity].
Defined.

(** X10: [dtfs_list_node] with a non-null visitor on a directory that
    opens (the join succeeds) returns 0 after invoking the visitor once
    for every entry whose name does not begin with '.', in the order
    readdir delivers them, each time with the joined path; entries that
    begin with '.' are never passed on, and opendir is the only store
    access.  In particular a directory holding only "." and ".." gives
    no visitor call. *)
Theorem list_node_visits (e : env) (b : string) (path : option string)
        (str : string) (entries : list string) :
  dtfs_concat_path (env_asprintf e) (env_malloc e) (Some b) path = Ret (Some str) ->
  env_opendir e str = Some entries ->
  exists tr,
    dtfs_list_node e (Some b) path true = Ret (0, tr) /\
    visits tr = map (EvNewSubNode str) (filter not_hidden entries) /\
    filter is_store_access tr = [EvOpendir str] /\
    (forall p name, In (EvNewSubNode p name) tr ->
       p = str /\ In name entries /\ first_char name <> Some "."%char) /\
    (forall name, In name entries -> first_char name <> Some "."%char ->
       In (EvNewSubNode str name) tr).
Proof.
  intros Hj Ho; unfold dtfs_list_node; cbn [negb].
  rewrite Hj; cbn [bind]; rewrite Ho.
  eexists; split; [reflexivity|].
  assert (Hvis : forall l, filter is_visit (map (EvNewSubNode str) l)
                           = map (EvNewSubNode str) l).
  { induction l as [|x l IH]; [reflexivity | cbn; now rewrite IH]. }
  assert (Hacc : forall l, filter is_store_access (map (EvNewSubNode str) l) = []).
  { induction l as [|x l IH]; [reflexivity | exact IH]. }
  assert (Hhid : forall name, not_hidden name = true <-> first_char name <> Some "."%char).
  { intro name; unfold not_hidden; destruct (first_char name) as [c|].
    - rewrite negb_true_iff, Ascii.eqb_neq; split; intros H E; apply H;
        [now injection E | now f_equal].
    - split; [discriminate | reflexivity]. }
  split; [unfold visits; cbn [filter is_visit]; apply Hvis|].
  split; [cbn [filter is_store_access]; now rewrite Hacc|].
  split.
  - intros p name [H | H]; [discriminate|].
    apply in_map_iff in H; destruct H as (x & Hx & Hin).
    injection Hx as <- <-; apply filter_In in Hin; destruct Hin as [Hin Hnh].
    repeat split; auto; now apply Hhid.
  - intros name Hin Hnh; right; apply in_map, filter_In; split; [exact Hin|].
    now apply Hhid.
Qed.

Lemma list_node_visits_witness :
  (exists tr,
      dtfs_list_node sample_env (Some "/dt"%string) None true = Ret (0, tr) /\
      visits tr = [EvNewSubNode "/dt" "model"; EvNewSubNode "/dt" "ranges";
                   EvNewSubNode "/dt" "cpus"]) /\
  (exists tr,
      dtfs_list_node sample_env (Some "/dt"%string) (Some "cpus"%string) true
      = Ret (0, tr) /\ visits tr = []).
Proof.
  split.
  - destruct (list_node_visits sample_env "/dt" None "/dt"
                ["."%string; ".."%string; "model"%string; "ranges"%string;
                 "cpus"%string] eq_refl eq_refl) as (tr & Hr & Hv & _).
    exists tr; split; [exact Hr | exact Hv].
  - destruct (list_node_visits sample_env "/dt" (Some "cpus"%string) "/dt/cpus"
                ["."%string; ".."%string] eq_refl eq_refl) as (tr & Hr & Hv & _).
    exists tr; split; [exact Hr | exact Hv].
Defined.

Lemma visits_check_path (e : env) (base path : option string) (t : Z)
      (ev : list event) :
  dtfs_check_path e base path = Ret (t, ev) -> visits ev = [].
Proof.
  intro H; destruct (dtfs_check_path_returns e base path) as (t' & ev' & H' & Hv).
  rewrite H in H'; now injection H' as _ ->.
Qed.

(* every way a call of dtfs_prop_get with a visitor can end *)
Lemma dtfs_prop_get_cases (e : env) (base path : option string) :
  exists r tr,
    dtfs_prop_get e base path true = Ret (r, tr) /\
    ((r = -1 /\ visits tr = []) \/
     (r = 0 /\
      exists b str s,
        base = Some b /\
        dtfs_concat_path (env_asprintf e) (env_malloc e) (Some b) path
        = Ret (Some str) /\
        env_stat e str = Some s /\ st_mode s = S_IFREG /\
        ((st_size s <= 0 /\ visits tr = [EvPropContent str None 0]) \/
         (0 < st_size s /\
          exists stream,
            env_fopen e str = Some stream /\
            st_size s <= blen stream /\
            env_malloc e (st_size s) = true /\
            visits tr = [EvPropContent str
                           (Some (firstn (Z.to_nat (st_size s)) stream))
                           (st_size s)])))).
Proof.
  unfold dtfs_prop_get; cbn [negb].
  destruct (dtfs_check_path_returns e base path) as (t & ev & Hc & Hv).
  rewrite Hc; cbn [bind fst snd].
  destruct (t =? DTFS_PATH_PROPERTY) eqn:Et; cbn [negb].
  2:{ exists (-1), ev; auto. }
  apply Z.eqb_eq in Et; subst t.
  destruct (dtfs_check_path_property e base path ev Hc)
    as (b & str & s & -> & Hj & Hs & Hm & ->).
  rewrite Hj; cbn [bind]; rewrite Hs.
  destruct (st_size s >? 0) eqn:Esz.
  2:{ eexists 0, _; split; [reflexivity|]; right; split; [reflexivity|].
      exists b, str, s; repeat split; auto.
      left; split; [|reflexivity].
      rewrite Z.gtb_ltb in Esz; apply Z.ltb_ge in Esz; lia. }
  rewrite Z.gtb_ltb in Esz; apply Z.ltb_lt in Esz.
  destruct (env_fopen e str) as [stream|] eqn:Ef.
  2:{ eexists (-1), _; split; [reflexivity|]; now left. }
  destruct (env_malloc e (st_size s)) eqn:Ea; cbn [negb].
  2:{ eexists (-1), _; split; [reflexivity|]; now left. }
  destruct (blen (firstn (Z.to_nat (st_size s)) stream) =? st_size s) eqn:Er;
    cbn [negb].
  2:{ eexists (-1), _; split; [reflexivity|]; now left. }
  eexists 0, _; split; [reflexivity|]; right; split; [reflexivity|].
  exists b, str, s; repeat split; auto.
  right; split; [exact Esz|]; exists stream; repeat split; auto.
  apply Z.eqb_eq in Er; unfold blen in *; rewrite length_firstn in Er; lia.
Qed.

(** X11: [dtfs_prop_get] with a non-null visitor always returns, and its
    return value tells what happened to the visitor: 0 means it was
    invoked exactly once, -1 means it was not invoked at all.  There is
    no other outcome. *)
Theorem prop_get_return_code (e : env) (base path : option string) :
  exists r tr,
    dtfs_prop_get e base path true = Ret (r, tr) /\
    ((r = 0 /\ List.length (visits tr) = 1%nat) \/
     (r = -1 /\ visits tr = [])).
Proof.
  destruct (dtfs_prop_get_cases e base path) as (r & tr & Hr & Hcases).
  exists r, tr; split; [exact Hr|].
  destruct Hcases as [Hfail | (-> & b & str & s & _ & _ & _ & _ & Hv)];
    [now right | left; split; [reflexivity|]].
  destruct Hv as [[_ ->] | (_ & stream & _ & _ & _ & ->)]; reflexivity.
Qed.

(** X12: what the visitor of [dtfs_prop_get] receives.  Every invocation
    carries the joined path of a regular file and either the null buffer
    with length 0 (stat size not positive) or a buffer whose length is
    the length argument, which is the stat size and positive; that
    buffer is the first stat-size bytes of what the file delivers. *)
Theorem prop_get_visit_arguments (e : env) (base path : option string) (r : Z)
        (tr : list event) (p : string) (data : option (list byte)) (len : Z) :
  dtfs_prop_get e base path true = Ret (r, tr) ->
  In (EvPropContent p data len) tr ->
  exists b s,
    base = Some b /\
    dtfs_concat_path (env_asprintf e) (env_malloc e) (Some b) path = Ret (Some p) /\
    env_stat e p = Some s /\ st_mode s = S_IFREG /\
    match data with
    | None => len = 0 /\ st_size s <= 0
    | Some buf =>
        blen buf = len /\ len = st_size s /\ 0 < len /\
        exists stream,
          env_fopen e p = Some stream /\ buf = firstn (Z.to_nat len) stream
    end.
Proof.
  intros Hr Hin.
  assert (Hvin : In (EvPropContent p data len) (visits tr))
    by (apply filter_In; split; [exact Hin | reflexivity]).
  destruct (dtfs_prop_get_cases e base path) as (r' & tr' & Hr' & Hcases).
  rewrite Hr in Hr'; injection Hr' as <- <-.
  destruct Hcases as [[_ Hv] | (_ & b & str & s & Hb & Hj & Hs & Hm & Hv)].
  { rewrite Hv in Hvin; destruct Hvin. }
  destruct Hv as [[Hsz Hv] | (Hsz & stream & Hf & Hlen & _ & Hv)];
    rewrite Hv in Hvin; destruct Hvin as [E | []];
    injection E as <- <- <-; exists b, s; repeat split; auto.
  - unfold blen; rewrite length_firstn; unfold blen in Hlen; lia.
  - exists stream; auto.
Qed.

Lemma prop_get_visit_arguments_witness :
  exists b s,
    Some "/dt"%string = Some b /\
    dtfs_concat_path (env_asprintf sample_env) (env_malloc sample_env) (Some b)
                     (Some "model"%string) = Ret (Some "/dt/model"%string) /\
    env_stat sample_env "/dt/model" = Some s /\ st_mode s = S_IFREG /\
    blen buf_a_b = 4 /\ 4 = st_size s /\ 0 < 4 /\
    exists stream,
      env_fopen sample_env "/dt/model" = Some stream /\
      buf_a_b = firstn (Z.to_nat 4) stream.
Proof.
  apply (prop_get_visit_arguments sample_env (Some "/dt"%string)
           (Some "model"%string) 0
           [EvStat "/dt/model"; EvStat "/dt/model"; EvFopen "/dt/model";
            EvPropContent "/dt/model" (Some buf_a_b) 4]
           "/dt/model" (Some buf_a_b) 4).
  - reflexivity.
  - cbn; auto.
Defined.

(** X13: a short read is an error.  When the file delivers fewer bytes
    than its stat size, [dtfs_prop_get] returns -1 and the visitor is
    not invoked; it is never handed a partial buffer. *)
Theorem prop_get_truncated_read (e : env) (b : string) (path : option string)
        (str : string) (s : stat_buf) (stream : list byte) :
  dtfs_concat_path (env_asprintf e) (env_malloc e) (Some b) path = Ret (Some str) ->
  env_stat e str = Some s -> st_mode s = S_IFREG ->
  env_fopen e str = Some stream -> blen stream < st_size s ->
  exists tr,
    dtfs_prop_get e (Some b) path true = Ret (-1, tr) /\ visits tr = [].
Proof.
  intros Hj Hs Hm Hf Hlen.
  destruct (dtfs_prop_get_cases e (Some b) path) as (r & tr & Hr & Hcases).
  exists tr; destruct Hcases as [[-> Hv] | (_ & b' & str' & s' & Hb & Hj' & Hs' & _ & Hv)];
    [auto|].
  exfalso; injection Hb as <-; rewrite Hj in Hj'; injection Hj' as <-.
  rewrite Hs in Hs'; injection Hs' as <-.
  pose proof (blen_nonneg stream).
  destruct Hv as [[Hsz _] | (_ & stream' & Hf' & Hle & _)]; [lia|].
  rewrite Hf in Hf'; injection Hf' as <-; lia.
Qed.

Lemma prop_get_truncated_read_witness :
  exists tr,
    dtfs_prop_get
      {| env_asprintf := false; env_malloc := fun _ => true;
         env_stat := fun _ => Some {| st_mode := S_IFREG; st_size := 8 |};
         env_opendir := fun _ => None;
         env_fopen := fun _ => Some buf_a_b |}
      (Some "/dt"%string) (Some "model"%string) true = Ret (-1, tr) /\
    visits tr = [].
Proof.
  apply (prop_get_truncated_read _ "/dt" (Some "model"%string) "/dt/model"
           {| st_mode := S_IFREG; st_size := 8 |} buf_a_b);
    try reflexivity.
Defined.

(** ** The list callback of the header *)

Lemma store_at_app (A : Type) (pre rest : list A) (x v : A) :
  store_at (pre ++ x :: rest) (List.length pre) v = Some (pre ++ v :: rest).
Proof.
  induction pre as [|y pre IH]; [reflexivity|].
  cbn [app List.length store_at]; now rewrite IH.
Qed.

Lemma store_at_outside (A : Type) (table : list A) (i : nat) (v : A) :
  (List.length table <= i)%nat -> store_at table i v = None.
Proof.
  revert i; induction table as [|y table IH]; intros i Hi; [reflexivity|].
  destruct i as [|i]; [cbn in Hi; lia|].
  cbn [store_at]; rewrite IH; [reflexivity | cbn in Hi; lia].
Qed.

Lemma run_node_list_cb_fill (malloc : Z -> bool) (tr : list event)
      (used free : list (option string)) (mx mis : Z) :
  Z.of_nat (List.length used) <= mx -> mx < 4294967296 ->
  mx - Z.of_nat (List.length used) <= Z.of_nat (List.length free) ->
  0 <= mis -> mis + Z.of_nat (List.length (visited_names tr)) < 4294967296 ->
  run_node_list_cb malloc tr
    (Some {| NodeList.names := Some (used ++ free); NodeList.max := mx;
             NodeList.count := Z.of_nat (List.length used);
             NodeList.missed := mis |})
  = Ret (Some {| NodeList.names :=
                   Some (used
                         ++ map (strdup malloc)
                              (firstn (Nat.min (List.length (visited_names tr))
                                         (Z.to_nat (mx - Z.of_nat (List.length used))))
                                      (visited_names tr))
                         ++ skipn (Nat.min (List.length (visited_names tr))
                                     (Z.to_nat (mx - Z.of_nat (List.length used))))
                                  free);
                 NodeList.max := mx;
                 NodeList.count :=
                   Z.of_nat (List.length used)
                   + Z.of_nat (Nat.min (List.length (visited_names tr))
                                 (Z.to_nat (mx - Z.of_nat (List.length used))));
                 NodeList.missed :=
                   mis + Z.of_nat (List.length (visited_names tr)
                                   - Nat.min (List.length (visited_names tr))
                                       (Z.to_nat (mx - Z.of_nat (List.length used)))) |}).
Proof.
  revert used free mis.
  induction tr as [|ev tr IH]; intros used free mis Hc Hm Hf Hmis Hn.
  - cbn [visited_names List.length Nat.min firstn skipn map app
         run_node_list_cb Nat.sub].
    now rewrite !Z.add_0_r.
  - destruct ev as [p | p | p | msg | p name | p d l];
      try (cbn [run_node_list_cb visited_names]; apply IH; assumption).
    cbn [run_node_list_cb dtfs_node_list_cb NodeList.names NodeList.count
         NodeList.max NodeList.missed].
    cbn [visited_names List.length] in *.
    set (ns := visited_names tr) in *.
    destruct (Z.of_nat (List.length used) <? mx) eqn:Elt.
    + apply Z.ltb_lt in Elt.
      destruct free as [|x free]; [cbn in Hf; lia|].
      rewrite Nat2Z.id, store_at_app; cbn [bind].
      rewrite to_unsigned_id by lia.
      assert (Hlen : List.length (used ++ [strdup malloc name])
                     = S (List.length used))
        by (rewrite length_app; cbn; lia).
      replace (Z.of_nat (List.length used) + 1)
        with (Z.of_nat (List.length (used ++ [strdup malloc name])))
        by (rewrite Hlen; lia).
      replace (used ++ strdup malloc name :: free)
        with ((used ++ [strdup malloc name]) ++ free)
        by (now rewrite <- app_assoc).
      rewrite (IH (used ++ [strdup malloc name]) free mis);
        try (rewrite ?Hlen; cbn [List.length] in *; lia).
      fold ns; rewrite Hlen.
      replace (Nat.min (S (List.length ns))
                 (Z.to_nat (mx - Z.of_nat (List.length used))))
        with (S (Nat.min (List.length ns)
                   (Z.to_nat (mx - Z.of_nat (S (List.length used)))))) by lia.
      cbn [firstn map skipn Nat.sub].
      rewrite <- !app_assoc; cbn [app].
      do 3 f_equal; lia.
    + apply Z.ltb_ge in Elt.
      rewrite to_unsigned_id by lia; cbn [bind].
      rewrite (IH used free (mis + 1)) by lia.
      fold ns.
      replace (Z.to_nat (mx - Z.of_nat (List.length used))) with 0%nat by lia.
      rewrite !Nat.min_0_r; cbn [firstn skipn map app].
      do 3 f_equal; lia.
Qed.

(** X14: [dtfs_node_list_cb] fills the table in order and then counts
    what does not fit.  Starting from a structure whose table has its
    first [count] slots used and at least [max - count] free slots after
    them, running the callback over the child visits of a trace stores
    the (duplicated) names of the first visits in the free slots, as
    many as fit below [max], leaves every other slot as it was, adds
    their number to [count] and the number of the remaining visits to
    [missed]; [count] never exceeds [max] and nothing is written outside
    the table. *)
Theorem node_list_cb_collects (malloc : Z -> bool) (tr : list event)
        (used free : list (option string)) (mx mis : Z) :
  let cnt := Z.of_nat (List.length used) in
  let ns := visited_names tr in
  let k := Nat.min (List.length ns) (Z.to_nat (mx - cnt)) in
  cnt <= mx -> mx < 4294967296 ->
  mx - cnt <= Z.of_nat (List.length free) ->
  0 <= mis -> mis + Z.of_nat (List.length ns) < 4294967296 ->
  run_node_list_cb malloc tr
    (Some {| NodeList.names := Some (used ++ free); NodeList.max := mx;
             NodeList.count := cnt; NodeList.missed := mis |})
  = Ret (Some {| NodeList.names :=
                   Some (used ++ map (strdup malloc) (firstn k ns) ++ skipn k free);
                 NodeList.max := mx;
                 NodeList.count := cnt + Z.of_nat k;
                 NodeList.missed := mis + Z.of_nat (List.length ns - k) |}) /\
  cnt + Z.of_nat k <= mx.
Proof.
  intros cnt ns k Hc Hm Hf Hmis Hn; split.
  - now apply run_node_list_cb_fill.
  - subst k cnt; lia.
Qed.

Lemma node_list_cb_collects_witness :
  run_node_list_cb (fun _ => true)
    [EvOpendir "/dt"; EvNewSubNode "/dt" "model"; EvNewSubNode "/dt" "ranges";
     EvNewSubNode "/dt" "cpus"]
    (Some {| NodeList.names := Some ([] ++ [None; None]); NodeList.max := 2;
             NodeList.count := 0; NodeList.missed := 0 |})
  = Ret (Some {| NodeList.names :=
                   Some [Some "model"%string; Some "ranges"%string];
                 NodeList.max := 2; NodeList.count := 2;
                 NodeList.missed := 1 |}).
Proof.
  refine (proj1 (node_list_cb_collects (fun _ => true)
           [EvOpendir "/dt"; EvNewSubNode "/dt" "model";
            EvNewSubNode "/dt" "ranges"; EvNewSubNode "/dt" "cpus"]
           [] [None; None] 2 0 _ _ _ _ _)); cbn; lia.
Defined.

Lemma visited_names_children (str : string) (l : list string) :
  visited_names (map (EvNewSubNode str) l) = l.
Proof. induction l as [|x l IH]; [reflexivity | cbn; now rewrite IH]. Qed.

(** X15: listing a directory into a fresh list.  [dtfs_list_node] run
    with [dtfs_node_list_cb] on a structure initialised as the header
    asks ([count] and [missed] 0, a table of at least [max] slots), on a
    directory that opens, returns 0 and leaves in the table the names of
    the first [max] entries that do not begin with '.', in directory
    order; [count] is their number and [missed] the number of such
    entries that did not fit, so that [count + missed] is the number of
    visible entries. *)
Theorem list_node_into_collects (e : env) (b : string) (path : option string)
        (str : string) (entries : list string) (table : list (option string))
        (mx : Z) :
  let shown := filter not_hidden entries in
  let k := Nat.min (List.length shown) (Z.to_nat mx) in
  dtfs_concat_path (env_asprintf e) (env_malloc e) (Some b) path = Ret (Some str) ->
  env_opendir e str = Some entries ->
  0 <= mx < 4294967296 -> mx <= Z.of_nat (List.length table) ->
  Z.of_nat (List.length shown) < 4294967296 ->
  list_node_into e (Some b) path
    (Some {| NodeList.names := Some table; NodeList.max := mx;
             NodeList.count := 0; NodeList.missed := 0 |})
  = Ret (0, Some {| NodeList.names :=
                      Some (map (strdup (env_malloc e)) (firstn k shown)
                            ++ skipn k table);
                    NodeList.max := mx;
                    NodeList.count := Z.of_nat k;
                    NodeList.missed := Z.of_nat (List.length shown - k) |}) /\
  Z.of_nat k + Z.of_nat (List.length shown - k) = Z.of_nat (List.length shown).
Proof.
  intros shown k Hj Ho Hm Ht Hn; split; [|lia].
  unfold list_node_into, dtfs_list_node; cbn [negb].
  rewrite Hj; cbn [bind]; rewrite Ho; cbn [bind snd fst run_node_list_cb].
  pose proof (run_node_list_cb_fill (env_malloc e)
                (map (EvNewSubNode str) shown) [] table mx 0) as Hrun.
  rewrite visited_names_children in Hrun.
  cbn [List.length app] in Hrun; change (Z.of_nat 0) with 0 in Hrun.
  rewrite Z.sub_0_r, !Z.add_0_l in Hrun.
  fold shown; rewrite Hrun by lia; reflexivity.
Qed.

Lemma list_node_into_collects_witness :
  list_node_into sample_env (Some "/dt"%string) None
    (Some {| NodeList.names := Some [None; None]; NodeList.max := 2;
             NodeList.count := 0; NodeList.missed := 0 |})
  = Ret (0, Some {| NodeList.names :=
                      Some [Some "model"%string; Some "ranges"%string];
                    NodeList.max := 2; NodeList.count := 2;
                    NodeList.missed := 1 |}).
Proof.
  refine (proj1 (list_node_into_collects sample_env "/dt" None "/dt"
           ["."%string; ".."%string; "model"%string; "ranges"%string;
            "cpus"%string] [None; None] 2 eq_refl eq_refl _ _ _)); cbn; lia.
Defined.

(** ** The copy callback of the header *)

Lemma run_prop_data_cb_visits (malloc : Z -> bool) (tr : list event)
      (priv : option PropData.dtfs_prop_data_s) :
  run_prop_data_cb malloc tr priv = run_prop_data_cb malloc (visits tr) priv.
Proof.
  revert priv; induction tr as [|ev tr IH]; intro priv; [reflexivity|].
  destruct ev; cbn [run_prop_data_cb visits filter is_visit]; try apply IH.
  destruct (dtfs_prop_data_cb malloc path data len priv); cbn [bind];
    [apply IH | reflexivity | reflexivity].
Qed.

(** X16: reading a property into a structure gives the stored bytes
    back.  [dtfs_prop_get] run with [dtfs_prop_data_cb] on a regular
    file whose non-empty content [buf] has the length stat reports, when
    the file opens and the allocations succeed, returns 0 and leaves in
    the structure a copy equal to [buf] and its length. *)
Theorem prop_get_into_copies (e : env) (b : string) (path : option string)
        (str : string) (buf : list byte) (d : PropData.dtfs_prop_data_s) :
  dtfs_concat_path (env_asprintf e) (env_malloc e) (Some b) path = Ret (Some str) ->
  env_stat e str = Some {| st_mode := S_IFREG; st_size := blen buf |} ->
  buf <> [] -> env_fopen e str = Some buf ->
  env_malloc e (blen buf) = true ->
  prop_get_into e (Some b) path (Some d)
  = Ret (0, Some {| PropData.data := Some buf; PropData.len := blen buf |}).
Proof.
  intros Hj Hs Hne Hf Hm.
  assert (Hpos : 0 < blen buf)
    by (destruct buf; [contradiction | rewrite blen_cons; pose proof (blen_nonneg buf); lia]).
  unfold prop_get_into.
  destruct (dtfs_prop_get_cases e (Some b) path) as (r & tr & Hr & Hcases).
  rewrite Hr; cbn [bind fst snd]; rewrite run_prop_data_cb_visits.
  destruct Hcases as [[-> Hv] | (-> & b' & str' & s' & Hb & Hj' & Hs' & _ & Hv)].
  - (* the call cannot fail: every step succeeds *)
    exfalso; revert Hr; unfold dtfs_prop_get; cbn [negb].
    rewrite (dtfs_check_path_regular e b path str _ Hj Hs eq_refl).
    cbn [bind fst snd]; change (DTFS_PATH_PROPERTY =? DTFS_PATH_PROPERTY) with true.
    cbn [negb]; rewrite Hj; cbn [bind]; rewrite Hs; cbn [st_size].
    assert (Hgt : (blen buf >? 0) = true) by (rewrite Z.gtb_ltb; now apply Z.ltb_lt).
    rewrite Hgt, Hf, Hm; cbn [negb].
    assert (Hall : firstn (Z.to_nat (blen buf)) buf = buf)
      by (unfold blen; rewrite Nat2Z.id; apply firstn_all).
    rewrite Hall, Z.eqb_refl; cbn [negb]; discriminate.
  - injection Hb as <-; rewrite Hj in Hj'; injection Hj' as <-.
    rewrite Hs in Hs'; injection Hs' as <-; cbn [st_size] in Hv.
    destruct Hv as [[Hsz _] | (_ & stream & Hf' & _ & _ & ->)]; [lia|].
    rewrite Hf in Hf'; injection Hf' as <-.
    assert (Hall : firstn (Z.to_nat (blen buf)) buf = buf)
      by (unfold blen; rewrite Nat2Z.id; apply firstn_all).
    cbn [run_prop_data_cb dtfs_prop_data_cb]; rewrite Hm, Hall.
    unfold memcpy_from; rewrite Z.leb_refl, Hall; reflexivity.
Qed.

Lemma prop_get_into_copies_witness :
  prop_get_into sample_env (Some "/dt"%string) (Some "model"%string)
    (Some {| PropData.data := None; PropData.len := 0 |})
  = Ret (0, Some {| PropData.data := Some buf_a_b; PropData.len := 4 |}).
Proof.
  apply (prop_get_into_copies sample_env "/dt" (Some "model"%string) "/dt/model"
           buf_a_b); try reflexivity; discriminate.
Defined.

(** X17: a failed read leaves the caller's structure alone.  Whenever
    [dtfs_prop_get] run with [dtfs_prop_data_cb] returns -1, the
    structure is exactly what it was before the call: [data] and [len]
    are not set, not even to the error values of the callback. *)
Theorem prop_get_into_failure (e : env) (base path : option string)
        (d : PropData.dtfs_prop_data_s) (priv' : option PropData.dtfs_prop_data_s) :
  prop_get_into e base path (Some d) = Ret (-1, priv') -> priv' = Some d.
Proof.
  unfold prop_get_into.
  destruct (dtfs_prop_get_cases e base path) as (r & tr & Hr & Hcases).
  rewrite Hr; cbn [bind fst snd]; rewrite run_prop_data_cb_visits.
  destruct Hcases as [[-> ->] | (-> & Hrest)].
  - cbn; intro H; now injection H as <-.
  - destruct (run_prop_data_cb _ _ _); cbn [bind]; discriminate.
Qed.

Lemma prop_get_into_failure_witness :
  exists priv',
    prop_get_into sample_env (Some "/dt"%string) (Some "cpus"%string)
      (Some {| PropData.data := None; PropData.len := 7 |})
    = Ret (-1, priv') /\
    priv' = Some {| PropData.data := None; PropData.len := 7 |}.
Proof.
  exists (Some {| PropData.data := None; PropData.len := 7 |}).
  split; [reflexivity|].
  apply (prop_get_into_failure sample_env (Some "/dt"%string)
           (Some "cpus"%string)); reflexivity.
Defined.


(** ** The tool: dtfs_tree.c *)

Example tree_walk_example :
  option_map (fun r => (fst r, stdout_text (snd r)))
             (match main 3 tree_env ["dtfs_tree"%string; "/dt"%string] with
              | Ret r => Some r
              | _ => None
              end)
  = Some (0, ("+ /dt/cpus" ++ nl
              ++ "| /dt/cpus/reg (2) = <0x00000001 0x00000002>" ++ nl
              ++ "| /dt/cpus/mac (3) = [007fffffffff]" ++ nl
              ++ "| /dt/cpus/ranges" ++ nl
              ++ "| /dt/model (2) = " ++ quoted ["a"%byte] ++ ", "
              ++ quoted ["b"%byte] ++ nl)%string).
Proof. reflexivity. Qed.

Lemma stdout_text_app (o1 o2 : list out) :
  stdout_text (o1 ++ o2) = (stdout_text o1 ++ stdout_text o2)%string.
Proof.
  induction o1 as [|o o1 IH]; [reflexivity|].
  destruct o; cbn [app stdout_text]; rewrite IH; [|reflexivity|reflexivity].
  clear; induction text as [|c t IHt]; [reflexivity | cbn; now rewrite IHt].
Qed.

Lemma stdout_text_separated (sep : string) (items : list string) :
  stdout_text (separated sep items) = String.concat sep items.
Proof.
  induction items as [|x [|y rest] IH]; [reflexivity | |].
  - cbn; clear; induction x as [|c x IH]; [reflexivity | cbn; now rewrite IH].
  - change (separated sep (x :: y :: rest))
      with (Stdout x :: Stdout sep :: separated sep (y :: rest)).
    change (String.concat sep (x :: y :: rest))
      with (x ++ sep ++ String.concat sep (y :: rest))%string.
    cbn [stdout_text]; now rewrite IH.
Qed.

Lemma no_stderr_separated (sep : string) (items : list string) :
  filter is_stderr (separated sep items) = [].
Proof. induction items as [|x [|y rest] IH]; [reflexivity | reflexivity | exact IH]. Qed.

Lemma skipn_nth (A : Type) (l : list A) (k : nat) (d : A) :
  (k < List.length l)%nat -> skipn k l = nth k l d :: skipn (S k) l.
Proof.
  revert k; induction l as [|x l IH]; intros k Hk; [cbn in Hk; lia|].
  destruct k as [|k]; [reflexivity|].
  cbn [skipn nth]; apply IH; cbn in Hk; lia.
Qed.

Lemma incr_int_small (i : Z) : i < C.INT_MAX -> incr_int i = Ret (i + 1).
Proof.
  intro H; unfold incr_int.
  destruct (i =? C.INT_MAX) eqn:E; [apply Z.eqb_eq in E; lia | reflexivity].
Qed.

(* the loop of the Strings case prints every run and never gives up *)
Lemma print_strings_spec (fuel : nat) (b : list byte) (count i : Z) :
  blen b <= C.INT_MAX -> classify_rule b = Strings ->
  count = Z.of_nat (List.length (runs b)) ->
  0 <= i <= count -> (Z.to_nat (count - i) < fuel)%nat ->
  print_strings fuel b (blen b) count i
  = Ret (separated ", " (map quoted (skipn (Z.to_nat i) (runs b))), false).
Proof.
  intros Hb Hc Hcount.
  pose proof (runs_length_le b) as Hle.
  assert (Hmax : count <= C.INT_MAX) by (unfold blen in Hb; lia).
  revert i; induction fuel as [|fuel IH]; intros i Hi Hf; [lia|].
  cbn [print_strings].
  rewrite (to_unsigned_id i) by (unfold C.INT_MAX in *; lia).
  destruct (i <? count) eqn:Elt.
  2:{ apply Z.ltb_ge in Elt.
      rewrite skipn_all2 by lia; reflexivity. }
  apply Z.ltb_lt in Elt.
  rewrite dtfs_string_get_spec, Hc by (unfold C.INT_MAX in *; lia).
  assert (Hin : (i <? Z.of_nat (List.length (runs b))) = true)
    by (apply Z.ltb_lt; lia).
  rewrite Hin; cbn [bind fst snd Z.eqb].
  pose proof (cstring_at_run_offset (Z.to_nat i) b [] b eq_refl ltac:(lia)) as Hs.
  rewrite blen_nil, Z.add_0_l in Hs; rewrite Hs; cbn [bind].
  rewrite incr_int_small by lia; cbn [bind].
  rewrite (IH (i + 1)) by lia; cbn [bind fst snd].
  rewrite (to_unsigned_id (count - 1)) by (unfold C.INT_MAX in *; lia).
  rewrite (skipn_nth _ (runs b) (Z.to_nat i) []) by lia.
  replace (Z.to_nat (i + 1)) with (S (Z.to_nat i)) by lia.
  cbn [map separated].
  destruct (i <? count - 1) eqn:Esep.
  - apply Z.ltb_lt in Esep.
    rewrite (skipn_nth _ (runs b) (S (Z.to_nat i)) []) by lia.
    reflexivity.
  - apply Z.ltb_ge in Esep.
    rewrite (skipn_all2 (n := S (Z.to_nat i))) by lia.
    reflexivity.
Qed.

Lemma words_of_length (n : nat) (b : list byte) :
  (List.length b <= n)%nat ->
  (4 * List.length (words_of b) <= List.length b < 4 * List.length (words_of b) + 4)%nat.
Proof.
  revert b; induction n as [n IH] using lt_wf_ind; intros b Hn.
  destruct b as [|b0 [|b1 [|b2 [|b3 rest]]]]; cbn [words_of List.length]; try lia.
  specialize (IH (List.length rest) ltac:(cbn in Hn; lia) rest (Nat.le_refl _)); lia.
Qed.

Lemma words_of_count (b : list byte) :
  Z.of_nat (List.length (words_of b)) = blen b / 4.
Proof.
  pose proof (words_of_length (List.length b) b (Nat.le_refl _)) as H.
  unfold blen.
  apply (Z.div_unique _ 4 _ (Z.of_nat (List.length b)
                             - 4 * Z.of_nat (List.length (words_of b)))); lia.
Qed.

Lemma nth_words_of (n : nat) (pre rest : list byte) (b0 b1 b2 b3 : byte) :
  List.length pre = (4 * n)%nat ->
  nth n (words_of (pre ++ b0 :: b1 :: b2 :: b3 :: rest)) 0 = be32 b0 b1 b2 b3.
Proof.
  revert pre; induction n as [|n IH]; intros pre Hp.
  - destruct pre; [reflexivity | cbn in Hp; lia].
  - destruct pre as [|c0 [|c1 [|c2 [|c3 pre]]]]; cbn in Hp; try lia.
    cbn [app words_of nth]; apply IH; lia.
Qed.

Lemma dtfs_word_get_nth (b : list byte) (n : Z) :
  blen b <= C.INT_MAX -> classify_rule b = Words -> 0 <= n < blen b / 4 ->
  dtfs_word_get b (blen b) n true
  = Ret (0, Some (nth (Z.to_nat n) (words_of b) 0)).
Proof.
  intros Hb Hc Hn.
  pose proof (blen_nonneg b) as Hnn.
  assert (Hin : 4 * n + 4 <= blen b).
  { pose proof (Z.mul_div_le (blen b) 4 ltac:(lia)); lia. }
  destruct (four_bytes_at b (4 * Z.to_nat n))
    as (pre & b0 & b1 & b2 & b3 & rest & Hd & Hp); [unfold blen in Hin; lia|].
  rewrite (dtfs_word_get_in_range b pre rest b0 b1 b2 b3 n); auto; try lia.
  - rewrite Hd at 1; now rewrite nth_words_of.
  - unfold blen; lia.
Qed.

(* the loop of the Words case prints every word of the buffer *)
Lemma print_words_spec (fuel : nat) (b : list byte) (i : Z) :
  blen b <= C.INT_MAX -> classify_rule b = Words ->
  0 <= i <= blen b / 4 -> (Z.to_nat (blen b / 4 - i) < fuel)%nat ->
  print_words fuel b (blen b) (blen b / 4) i
  = Ret (separated " "
           (map (fun w => ("0x" ++ printf_hex true 8 w)%string)
                (skipn (Z.to_nat i) (words_of b)))).
Proof.
  intros Hb Hc.
  pose proof (words_of_count b) as Hcount.
  pose proof (blen_nonneg b) as Hnn.
  assert (Hmax : blen b / 4 <= C.INT_MAX).
  { pose proof (Z.mul_div_le (blen b) 4 ltac:(lia)).
    assert (0 <= blen b / 4) by (apply Z.div_pos; lia). lia. }
  revert i; induction fuel as [|fuel IH]; intros i Hi Hf; [lia|].
  cbn [print_words].
  rewrite (to_unsigned_id i) by (unfold C.INT_MAX in *; lia).
  destruct (i <? blen b / 4) eqn:Elt.
  2:{ apply Z.ltb_ge in Elt.
      rewrite skipn_all2 by lia; reflexivity. }
  apply Z.ltb_lt in Elt.
  rewrite dtfs_word_get_nth by (auto; lia); cbn [bind fst snd].
  rewrite incr_int_small by lia; cbn [bind].
  rewrite (IH (i + 1)) by lia; cbn [bind].
  rewrite (to_unsigned_id (blen b / 4 - 1)) by (unfold C.INT_MAX in *; lia).
  rewrite (skipn_nth _ (words_of b) (Z.to_nat i) 0) by lia.
  replace (Z.to_nat (i + 1)) with (S (Z.to_nat i)) by lia.
  cbn [map separated].
  destruct (i <? blen b / 4 - 1) eqn:Esep.
  - apply Z.ltb_lt in Esep.
    rewrite (skipn_nth _ (words_of b) (S (Z.to_nat i)) 0) by lia.
    reflexivity.
  - apply Z.ltb_ge in Esep.
    rewrite (skipn_all2 (n := S (Z.to_nat i))) by lia.
    reflexivity.
Qed.

Lemma load_nth (b : list byte) (i : Z) :
  0 <= i < blen b -> load b i = Ret (nth (Z.to_nat i) b x00).
Proof.
  intro Hi; unfold load.
  destruct (i <? 0) eqn:E; [apply Z.ltb_lt in E; lia|].
  rewrite (nth_error_nth' b x00) by (unfold blen in Hi; lia); reflexivity.
Qed.

(* the loop of the Bytes case prints every byte of the buffer *)
Lemma print_bytes_spec (fuel : nat) (b : list byte) (i : Z) :
  blen b <= C.INT_MAX ->
  0 <= i <= blen b -> (Z.to_nat (blen b - i) < fuel)%nat ->
  print_bytes fuel b (blen b) i
  = Ret (map (fun c => Stdout (printf_hex false 2 (int8_val c)))
             (skipn (Z.to_nat i) b)).
Proof.
  intros Hb.
  revert i; induction fuel as [|fuel IH]; intros i Hi Hf; [lia|].
  cbn [print_bytes].
  rewrite (to_unsigned_id i) by (unfold C.INT_MAX in *; lia).
  destruct (i <? blen b) eqn:Elt.
  2:{ apply Z.ltb_ge in Elt.
      rewrite skipn_all2 by (unfold blen in *; lia); reflexivity. }
  apply Z.ltb_lt in Elt.
  rewrite load_nth by lia; cbn [bind].
  rewrite incr_int_small by lia; cbn [bind].
  rewrite (IH (i + 1)) by lia; cbn [bind].
  rewrite (skipn_nth _ b (Z.to_nat i) x00) by (unfold blen in *; lia).
  replace (Z.to_nat (i + 1)) with (S (Z.to_nat i)) by lia.
  reflexivity.
Qed.

Lemma string_app_assoc (s1 s2 s3 : string) :
  ((s1 ++ s2) ++ s3 = s1 ++ s2 ++ s3)%string.
Proof. induction s1 as [|c s1 IH]; [reflexivity | cbn; now rewrite IH]. Qed.

Lemma string_app_nil_r (s : string) : (s ++ "" = s)%string.
Proof. induction s as [|c s IH]; [reflexivity | cbn; now rewrite IH]. Qed.

Lemma stdout_text_map (f : byte -> string) (l : list byte) :
  stdout_text (map (fun c => Stdout (f c)) l) = String.concat "" (map f l).
Proof.
  induction l as [|c [|c' l] IH]; [reflexivity | |].
  - cbn; apply string_app_nil_r.
  - change (stdout_text (map (fun c => Stdout (f c)) (c :: c' :: l)))
      with (f c ++ stdout_text (map (fun c => Stdout (f c)) (c' :: l)))%string.
    rewrite IH; reflexivity.
Qed.

Lemma no_stderr_map (f : byte -> string) (l : list byte) :
  filter is_stderr (map (fun c => Stdout (f c)) l) = [].
Proof. induction l as [|c l IH]; [reflexivity | exact IH]. Qed.

Lemma prop_content_prints (path : string) (b : list byte) :
  blen b <= C.INT_MAX ->
  prop_content path (Some b) (blen b) = Ret (prop_lines path b).
Proof.
  intro Hb; unfold prop_content, prop_lines.
  rewrite dtfs_get_prop_type_spec by assumption; cbn [bind fst snd].
  unfold count_rule.
  pose proof (blen_nonneg b) as Hnn.
  destruct (classify_rule b) eqn:Hc; cbn [prop_code].
  - reflexivity.
  - change (DTFS_PROP_STRINGS =? DTFS_PROP_SIMPLE) with false.
    change (DTFS_PROP_STRINGS =? DTFS_PROP_STRINGS) with true; cbv iota.
    rewrite (print_strings_spec _ b _ 0 Hb Hc eq_refl) by lia.
    reflexivity.
  - change (DTFS_PROP_WORDS =? DTFS_PROP_SIMPLE) with false.
    change (DTFS_PROP_WORDS =? DTFS_PROP_STRINGS) with false.
    change (DTFS_PROP_WORDS =? DTFS_PROP_WORDS) with true; cbv iota.
    assert (0 <= blen b / 4) by (apply Z.div_pos; lia).
    rewrite (print_words_spec _ b 0 Hb Hc) by lia.
    reflexivity.
  - change (DTFS_PROP_BYTES =? DTFS_PROP_SIMPLE) with false.
    change (DTFS_PROP_BYTES =? DTFS_PROP_STRINGS) with false.
    change (DTFS_PROP_BYTES =? DTFS_PROP_WORDS) with false.
    change (DTFS_PROP_BYTES =? DTFS_PROP_BYTES) with true; cbv iota.
    rewrite (print_bytes_spec _ b 0 Hb) by lia.
    reflexivity.
Qed.

(* puts a printed line in the form head ++ body ++ tail *)
Ltac line_text :=
  cbn [stdout_text];
  rewrite ?stdout_text_app, ?stdout_text_separated, ?stdout_text_map;
  cbn [stdout_text];
  rewrite ?string_app_nil_r, ?string_app_assoc;
  reflexivity.

Lemma no_stderr_app (o1 o2 : list out) :
  filter is_stderr (o1 ++ o2) = filter is_stderr o1 ++ filter is_stderr o2.
Proof. apply filter_app. Qed.

(** X18: what the tool prints for a string list.  For a buffer of at
    most INT_MAX bytes that classifies as Strings, [prop_content] writes
    to stdout the line  | path (count) = "s0", "s1", ...  where the
    strings are the NUL-terminated runs of the buffer in order, each
    between quotes, separated by a comma and a space; the "Failed to get
    string" branch is never taken. *)
Theorem prop_content_strings (path : string) (b : list byte) :
  blen b <= C.INT_MAX -> classifies_as b DTFS_PROP_STRINGS ->
  exists outs,
    prop_content path (Some b) (blen b) = Ret outs /\
    stdout_text outs
    = ("| " ++ path ++ " (" ++ printf_d (Z.of_nat (List.length (runs b)))
       ++ ") = " ++ String.concat ", " (map quoted (runs b)) ++ nl)%string /\
    filter is_stderr outs = [].
Proof.
  intros Hb Hc; apply (classifies_as_rule b Strings Hb) in Hc.
  exists (prop_lines path b); split; [now apply prop_content_prints|].
  unfold prop_lines; rewrite Hc; split.
  - line_text.
  - cbn [filter is_stderr]; now rewrite no_stderr_app, no_stderr_separated.
Qed.

Lemma prop_content_strings_witness :
  exists outs,
    prop_content "/dt/model" (Some buf_a_b) (blen buf_a_b) = Ret outs /\
    stdout_text outs
    = ("| /dt/model (2) = " ++ quoted ["a"%byte] ++ ", " ++ quoted ["b"%byte]
       ++ nl)%string /\
    filter is_stderr outs = [].
Proof.
  assert (Hb : blen buf_a_b <= C.INT_MAX) by (vm_compute; discriminate).
  assert (Hc : classifies_as buf_a_b DTFS_PROP_STRINGS) by (now exists None).
  exact (prop_content_strings "/dt/model" buf_a_b Hb Hc).
Defined.

(** X19: what the tool prints for a word list.  For a buffer of at most
    INT_MAX bytes that classifies as Words, [prop_content] writes the
    line  | path (l/4) = <0xXXXXXXXX ...>  with one group of eight
    upper-case hexadecimal digits for each big-endian word of the
    buffer, in order, separated by single spaces; no word is printed
    from an unset variable. *)
Theorem prop_content_words (path : string) (b : list byte) :
  blen b <= C.INT_MAX -> classifies_as b DTFS_PROP_WORDS ->
  exists outs,
    prop_content path (Some b) (blen b) = Ret outs /\
    stdout_text outs
    = ("| " ++ path ++ " (" ++ printf_d (blen b / 4) ++ ") = <"
       ++ String.concat " " (map (fun w => "0x" ++ printf_hex true 8 w)
                                 (words_of b))
       ++ ">" ++ nl)%string /\
    Z.of_nat (List.length (words_of b)) = blen b / 4 /\
    filter is_stderr outs = [].
Proof.
  intros Hb Hc; apply (classifies_as_rule b Words Hb) in Hc.
  exists (prop_lines path b); split; [now apply prop_content_prints|].
  unfold prop_lines; rewrite Hc; split; [|split].
  - line_text.
  - apply words_of_count.
  - cbn [filter is_stderr]; now rewrite no_stderr_app, no_stderr_separated.
Qed.

Lemma prop_content_words_witness :
  exists outs,
    prop_content "/dt/reg" (Some buf_w12) (blen buf_w12) = Ret outs /\
    stdout_text outs = ("| /dt/reg (2) = <0x00000001 0x00000002>" ++ nl)%string.
Proof.
  assert (Hb : blen buf_w12 <= C.INT_MAX) by (vm_compute; discriminate).
  assert (Hc : classifies_as buf_w12 DTFS_PROP_WORDS) by (now exists None).
  destruct (prop_content_words "/dt/reg" buf_w12 Hb Hc) as (outs & Hr & Ht & _).
  exists outs; split; [exact Hr | exact Ht].
Defined.






(** X22: the printer never fails on what the reader hands it.  For every
    path and every buffer of at most INT_MAX bytes, [prop_content]
    returns without reading outside the buffer, writes a line to stdout
    (its text ends with a newline) and reports nothing on stderr:
    neither "Failed to get string" nor "Invalid Type". *)
Theorem prop_content_never_fails (path : string) (b : list byte) :
  blen b <= C.INT_MAX ->
  exists outs,
    prop_content path (Some b) (blen b) = Ret outs /\
    filter is_stderr outs = [] /\
    exists line, stdout_text outs = (line ++ nl)%string.
Proof.
  intro Hb; exists (prop_lines path b); split; [now apply prop_content_prints|].
  unfold prop_lines; destruct (classify_rule b); split;
    try (cbn [filter is_stderr];
         rewrite ?no_stderr_app, ?no_stderr_separated, ?no_stderr_map; reflexivity).
  - exists ("| " ++ path)%string; line_text.
  - exists ("| " ++ path ++ " (" ++ printf_d (Z.of_nat (List.length (runs b)))
            ++ ") = " ++ String.concat ", " (map quoted (runs b)))%string.
    line_text.
  - exists ("| " ++ path ++ " (" ++ printf_d (blen b / 4) ++ ") = <"
            ++ String.concat " " (map (fun w => "0x" ++ printf_hex true 8 w)
                                      (words_of b)) ++ ">")%string.
    line_text.
  - exists ("| " ++ path ++ " (" ++ printf_d (blen b) ++ ") = ["
            ++ String.concat "" (map (fun c => printf_hex false 2 (int8_val c)) b)
            ++ "]")%string.
    line_text.
Qed.

Lemma prop_content_never_fails_witness :
  exists outs,
    prop_content "/dt/x" (Some [x00]) (blen [x00]) = Ret outs /\
    filter is_stderr outs = [] /\
    exists line, stdout_text outs = (line ++ nl)%string.
Proof.
  apply (prop_content_never_fails "/dt/x" [x00]); vm_compute; discriminate.
Defined.

(** X23: the tool reports success on a directory it cannot open.  When
    the base path (argv[1], or the default without argument) is not
    "-h", is not empty, its copy can be allocated and opendir fails on
    it, [main] returns exit status 0 whatever the depth allowed to the
    walk: the only outputs are the opendir attempt and the library's
    diagnostic on stderr, nothing is written to stdout and "dtfs_list_node
    Failed !" is not printed. *)
Theorem main_unopenable_root (fuel : nat) (e : env) (argv : list string) :
  nth_error argv 1 <> Some "-h"%string ->
  base_path_of argv <> ""%string ->
  env_malloc e (slen (base_path_of argv) + 1) = true ->
  env_opendir e (base_path_of argv) = None ->
  main fuel e argv
  = Ret (0, [Lib (EvOpendir (base_path_of argv));
             Lib (EvStderr "dtfs_list_node: Couldn't open the directory")]).
Proof.
  intros Hh Hne Hm Ho.
  assert (Hwalk :
    (let* r := dtfs_list_node e (Some (base_path_of argv)) None true in
     let* sub := run_visits (new_sub_node fuel e) prop_content (snd r) in
     if fst r <? 0
     then Ret (1, sub ++ [Stdout ("dtfs_list_node Failed !" ++ nl)])
     else Ret (0, sub))
    = Ret (0, [Lib (EvOpendir (base_path_of argv));
               Lib (EvStderr "dtfs_list_node: Couldn't open the directory")])).
  { unfold dtfs_list_node, dtfs_concat_path; cbn [negb].
    rewrite (slen_nonempty _ Hne), Hm; cbn [bind]; rewrite Ho; reflexivity. }
  unfold main; destruct argv as [|prog [|arg1 rest]]; try exact Hwalk.
  cbn [base_path_of] in *.
  destruct (String.eqb arg1 "-h") eqn:E; [|exact Hwalk].
  apply String.eqb_eq in E; subst arg1; now elim Hh.
Qed.

Lemma main_unopenable_root_witness :
  main 0 tree_env ["dtfs_tree"%string; "/nonexistent"%string]
  = Ret (0, [Lib (EvOpendir "/nonexistent");
             Lib (EvStderr "dtfs_list_node: Couldn't open the directory")]).
Proof.
  apply (main_unopenable_root 0 tree_env
           ["dtfs_tree"%string; "/nonexistent"%string]);
    try reflexivity; discriminate.
Defined.

(** X24: the exit status of the tool.  Whenever [main] returns, its
    status is 0 or 1, and it is 1 exactly when argv[1] is "-h" or the
    base path cannot be joined (it is empty, or its copy cannot be
    allocated); failures met further down the walk never change the
    status. *)
Theorem main_exit_status (fuel : nat) (e : env) (argv : list string) (code : Z)
        (outs : list out) :
  main fuel e argv = Ret (code, outs) ->
  (code = 0 \/ code = 1) /\
  (code = 1 <->
   nth_error argv 1 = Some "-h"%string \/
   dtfs_concat_path (env_asprintf e) (env_malloc e) (Some (base_path_of argv)) None
   = Ret None).
Proof.
  assert (Hwalk : forall base,
    (let* r := dtfs_list_node e (Some base) None true in
     let* sub := run_visits (new_sub_node fuel e) prop_content (snd r) in
     if fst r <? 0
     then Ret (1, sub ++ [Stdout ("dtfs_list_node Failed !" ++ nl)])
     else Ret (0, sub)) = Ret (code, outs) ->
    (code = 0 \/ code = 1) /\
    (code = 1 <->
     dtfs_concat_path (env_asprintf e) (env_malloc e) (Some base) None = Ret None)).
  { intro base; unfold dtfs_list_node; cbn [negb].
    destruct (dtfs_concat_path_some (env_asprintf e) (env_malloc e) base None)
      as [Hf Ho].
    destruct (dtfs_concat_path _ _ (Some base) None) as [[str|]| |];
      try contradiction; cbn [bind].
    - destruct (env_opendir e str) as [names|]; cbn [bind fst snd];
        destruct (run_visits _ _ _); cbn [bind]; try discriminate;
        intro H; injection H as <- _;
        (split; [now left | split; intro; discriminate]).
    - cbn [fst snd run_visits bind].
      intro H; injection H as <- _; split; [now right | tauto]. }
  unfold main; destruct argv as [|prog [|arg1 rest]].
  - intro H; destruct (Hwalk _ H) as [H1 H2]; split; [exact H1|].
    rewrite H2; cbn [nth_error base_path_of]; split; [now right|].
    intros [E | E]; [discriminate | exact E].
  - intro H; destruct (Hwalk _ H) as [H1 H2]; split; [exact H1|].
    rewrite H2; cbn [nth_error base_path_of]; split; [now right|].
    intros [E | E]; [discriminate | exact E].
  - cbn [nth_error base_path_of].
    destruct (String.eqb arg1 "-h") eqn:E.
    + apply String.eqb_eq in E; subst arg1.
      intro H; injection H as <- _; split; [now right|].
      split; [now left | reflexivity].
    + apply String.eqb_neq in E.
      intro H; destruct (Hwalk _ H) as [H1 H2]; split; [exact H1|].
      rewrite H2; split; [now right|].
      intros [E' | E']; [injection E' as ->; now elim E | exact E'].
Qed.

Lemma main_exit_status_witness :
  main 3 tree_env ["dtfs_tree"%string; ""%string]
  = Ret (1, [Lib (EvStderr "dtfs_list_node: concat path failed (%m)");
             Stdout ("dtfs_list_node Failed !" ++ nl)]) /\
  (nth_error ["dtfs_tree"%string; ""%string] 1 = Some "-h"%string \/
   dtfs_concat_path (env_asprintf tree_env) (env_malloc tree_env)
                    (Some (base_path_of ["dtfs_tree"%string; ""%string])) None
   = Ret None).
Proof.
  assert (H : main 3 tree_env ["dtfs_tree"%string; ""%string]
              = Ret (1, [Lib (EvStderr "dtfs_list_node: concat path failed (%m)");
                         Stdout ("dtfs_list_node Failed !" ++ nl)]))
    by reflexivity.
  split; [exact H|].
  exact (proj1 (proj2 (main_exit_status 3 tree_env _ _ _ H)) eq_refl).
Defined.

(** ** Lengths beyond the range of int *)

(** X25: between INT_MAX and 2^32 the classifier cannot be used.  For
    every buffer and every length with INT_MAX < len < 2^32, whether or
    not a count is asked for, [dtfs_get_prop_type] converts the length
    to a negative int and reads s[len - 1] before the start of the
    buffer; both decoders, which classify first, do the same. *)
Theorem classifier_faults_beyond_int (data : list byte) (len n : Z) (count : bool) :
  C.INT_MAX < len < 4294967296 ->
  dtfs_get_prop_type data len count = Fault /\
  dtfs_word_get data len n true = Fault /\
  dtfs_string_get data len n true = Fault.
Proof.
  intro Hlen; unfold C.INT_MAX in Hlen.
  assert (Hint : C.to_int len = len - 4294967296).
  { unfold C.to_int.
    replace (len + 2147483648) with (len - 2147483648 + 1 * 4294967296) by lia.
    rewrite Z.mod_add, Z.mod_small by lia; lia. }
  assert (Hp : is_printable_string data (C.to_int len) = Fault).
  { unfold is_printable_string; rewrite Hint.
    destruct (len - 4294967296 =? 0) eqn:E; [apply Z.eqb_eq in E; lia|].
    rewrite load_outside by lia; reflexivity. }
  assert (Ht : forall c, dtfs_get_prop_type data len c = Fault).
  { intro c; unfold dtfs_get_prop_type.
    destruct (len =? 0) eqn:E; [apply Z.eqb_eq in E; lia|].
    now rewrite Hp. }
  split; [apply Ht|].
  unfold dtfs_word_get, dtfs_string_get; cbn [negb]; now rewrite Ht.
Qed.

Lemma classifier_faults_beyond_int_witness :
  C.INT_MAX < 3000000000 < 4294967296 /\
  dtfs_get_prop_type (repeat x00 (Z.to_nat 3000000000)) 3000000000 true = Fault.
Proof.
  assert (H : C.INT_MAX < 3000000000 < 4294967296) by (unfold C.INT_MAX; lia).
  split; [exact H|].
  exact (proj1 (classifier_faults_beyond_int (repeat x00 (Z.to_nat 3000000000))
                  3000000000 0 true H)).
Defined.
